(** * JinaSum: the message-triggering and caching core of the plugin

    A shallow embedding of [jina_sum.py] (class [JinaSum]): the URL
    validator, the auto-summarize policy, the handler [on_handle_context],
    the lazy purge of the two caches and the two orchestrators
    [_process_summary] and [_process_question], followed by the properties
    the specification states about them.

    Python [str] values are sequences of Unicode code points, so a string
    is a [list N] here; literals are written as UTF-8 and decoded by [py].
    The two dictionaries of the plugin are [gmap]s keyed by the chat id.
    Readings of [time.time()] and the two timeouts are rationals.  The
    remote services, the clock and the directory lookups are an
    environment [Env] that answers each call; an exception of a remote
    call is an [Outcome] carrying its message, and the [try]/[except]
    structure of the two orchestrators is kept as it is written. *)

From Stdlib Require Import Ascii String QArith Lqa.
From stdpp Require Import gmap strings list fin_maps.
From Equations Require Import Equations.

Local Open Scope N_scope.

(** ** Strings *)

Abbreviation str := (list N) (only parsing).

Fixpoint bytes_of_string (s : string) : list N :=
  match s with
  | EmptyString => []
  | String a r => N_of_ascii a :: bytes_of_string r
  end.

(** UTF-8 decoding of a literal; a truncated sequence at the end is dropped. *)
Fixpoint utf8_decode (bs : list N) : str :=
  match bs with
  | [] => []
  | b0 :: r0 =>
    if b0 <? 128 then b0 :: utf8_decode r0
    else match r0 with
    | [] => []
    | b1 :: r1 =>
      if b0 <? 224 then
        (N.land b0 31 * 64 + N.land b1 63) :: utf8_decode r1
      else match r1 with
      | [] => []
      | b2 :: r2 =>
        if b0 <? 240 then
          (N.land b0 15 * 4096 + N.land b1 63 * 64 + N.land b2 63)
            :: utf8_decode r2
        else match r2 with
        | [] => []
        | b3 :: r3 =>
          (N.land b0 7 * 262144 + N.land b1 63 * 4096
           + N.land b2 63 * 64 + N.land b3 63) :: utf8_decode r3
        end
      end
    end
  end.

Definition py (s : string) : str := utf8_decode (bytes_of_string s).

(** [str.isspace] on one code point; [str.strip], [str.split] and the
    regular expression class [\s] all use this set. *)
Definition is_space (c : N) : bool :=
  ((9 <=? c) && (c <=? 13)) || ((28 <=? c) && (c <=? 32))
  || (c =? 133) || (c =? 160) || (c =? 5760)
  || ((8192 <=? c) && (c <=? 8202))
  || (c =? 8232) || (c =? 8233) || (c =? 8239) || (c =? 8287)
  || (c =? 12288).

Fixpoint lstrip (s : str) : str :=
  match s with
  | [] => []
  | c :: r => if is_space c then lstrip r else s
  end.

Definition rstrip (s : str) : str := rev (lstrip (rev s)).

(** [s.strip()] *)
Definition strip (s : str) : str := rstrip (lstrip s).

(** [s.startswith(p)] *)
Fixpoint startswith (s p : str) {struct p} : bool :=
  match p, s with
  | [], _ => true
  | _ :: _, [] => false
  | a :: p', b :: s' => (a =? b) && startswith s' p'
  end.

(** [s.split()]: the maximal runs of non-whitespace; [cur] holds the
    characters of the current run, most recent first. *)
Fixpoint split_from (cur : str) (s : str) : list str :=
  match s with
  | [] => match cur with [] => [] | _ => [rev cur] end
  | c :: r =>
    if is_space c then
      match cur with
      | [] => split_from [] r
      | _ => rev cur :: split_from [] r
      end
    else split_from (c :: cur) r
  end.

Definition split (s : str) : list str := split_from [] s.

(** [s[:n]] for an integer [n], which may be negative. *)
Definition slice_to (n : Z) (s : str) : str :=
  if (0 <=? n)%Z then take (Z.to_nat n) s
  else take (length s - Z.to_nat (- n))%nat s.

(** ** The group-chat prefix pattern

    [re.match(r'^\s*{}\s+'.format(re.escape(prefix)), content)] followed by
    [re.sub(pattern, '', content)].  [\s*] is greedy and gives characters
    back one at a time: with [k] leading whitespace characters skipped, the
    literal prefix must follow, and after it at least one whitespace
    character; [\s+] then takes the whole run.  The pattern is anchored, so
    the substitution removes that one match. *)

Definition match_here (prefix content : str) : option str :=
  if startswith content prefix then
    match drop (length prefix) content with
    | c :: r => if is_space c then Some (lstrip r) else None
    | [] => None
    end
  else None.

(** [content] with the match removed, or [None] when the pattern does not
    match.  The longest skip is tried first. *)
Fixpoint re_sub_prefix (prefix content : str) : option str :=
  match content with
  | c :: r =>
    if is_space c then
      match re_sub_prefix prefix r with
      | Some rest => Some rest
      | None => match_here prefix content
      end
    else match_here prefix content
  | [] => match_here prefix content
  end.

(** The loop over [group_chat_prefix]: the first prefix that matches is
    removed, and the loop stops. *)
Fixpoint strip_group_prefix (prefixes : list str) (content : str) : str :=
  match prefixes with
  | [] => content
  | prefix :: rest =>
    match re_sub_prefix prefix content with
    | Some content' => content'
    | None => strip_group_prefix rest content
    end
  end.

(** ** [urllib.parse.urlparse]: scheme and netloc

    The part of [urlsplit] that computes the two fields [_check_url] reads.
    Leading C0 control characters and spaces are dropped, tab, carriage
    return and line feed are removed everywhere; a scheme is the text
    before the first colon when it is not empty, starts with an ASCII
    letter and has only letters, digits, [+], [-] and [.]; the netloc is
    what follows [//] up to the first [/], [?] or [#].  These are the two
    fields of the result when the call returns; [urlparse_raises] below
    says when it raises [ValueError] instead. *)

Definition is_ascii_alpha (c : N) : bool :=
  ((65 <=? c) && (c <=? 90)) || ((97 <=? c) && (c <=? 122)).

Definition is_scheme_char (c : N) : bool :=
  is_ascii_alpha c || ((48 <=? c) && (c <=? 57))
  || (c =? 43) || (c =? 45) || (c =? 46).

Definition ascii_lower (c : N) : N :=
  if (65 <=? c) && (c <=? 90) then c + 32 else c.

Fixpoint lstrip_c0 (s : str) : str :=
  match s with
  | [] => []
  | c :: r => if c <=? 32 then lstrip_c0 r else s
  end.

Definition remove_unsafe (s : str) : str :=
  filter (λ c, c ≠ 9 ∧ c ≠ 13 ∧ c ≠ 10) s.

(** [s.find(c)] as a split of [s] around the first [c]. *)
Fixpoint find_char (c : N) (s : str) : option (str * str) :=
  match s with
  | [] => None
  | a :: r =>
    if a =? c then Some ([], r)
    else match find_char c r with
         | Some (before, after) => Some (a :: before, after)
         | None => None
         end
  end.

Fixpoint splitnetloc (s : str) : str :=
  match s with
  | [] => []
  | c :: r => if (c =? 47) || (c =? 63) || (c =? 35) then [] else c :: splitnetloc r
  end.

Record ParseResult := { scheme : str; netloc : str }.

Definition urlparse (url : str) : ParseResult :=
  let url := remove_unsafe (lstrip_c0 url) in
  let '(scheme, url) :=
    match find_char 58 url with
    | Some (c :: before, after) =>
      if is_ascii_alpha c && forallb is_scheme_char (c :: before)
      then (map ascii_lower (c :: before), after)
      else ([], url)
    | _ => ([], url)
    end in
  match url with
  | 47 :: 47 :: rest => {| scheme := scheme; netloc := splitnetloc rest |}
  | _ => {| scheme := scheme; netloc := [] |}
  end.

(** [urlsplit] raises [ValueError] on a netloc that has an opening
    bracket without a closing one or the reverse ("Invalid IPv6 URL"). *)
Definition unbalanced_brackets (netloc : str) : bool :=
  (bool_decide (91 ∈ netloc) && negb (bool_decide (93 ∈ netloc)))
  || (bool_decide (93 ∈ netloc) && negb (bool_decide (91 ∈ netloc))).

(** The texts on which [urlparse] raises [ValueError].  All the checks of
    [urlsplit] that raise look at the netloc only: the brackets, and the
    further validation of the netloc (a bracketed host that is no IP
    address, characters that normalize to one of [/?#@:]), which depends
    on the Unicode tables and the version of the library and is the
    parameter [netloc_invalid]. *)
Definition urlparse_raises (netloc_invalid : str → bool) (url : str) : bool :=
  unbalanced_brackets (netloc (urlparse url))
  || netloc_invalid (netloc (urlparse url)).

(** Truth value of a string or list: empty is false. *)
Definition nonempty {A} (l : list A) : bool :=
  match l with [] => false | _ => true end.

(** [x in l] for a list of strings. *)
Definition member (x : str) (l : list str) : bool := bool_decide (x ∈ l).


(** ** Data model *)

Module ContextType.
Inductive t := TEXT | SHARING | OTHER.
End ContextType.

Module ReplyType.
Inductive t := TEXT | ERROR.
End ReplyType.

Inductive EventAction := CONTINUE | BREAK | BREAK_PASS.

Record Reply := { reply_type : ReplyType.t; reply_content : str }.

(** The inbound event: [context.type], [context.content], [msg.is_group]
    and [msg.from_user_id]. *)
Record Event := {
  ctype : ContextType.t;
  content : str;
  is_group : bool;
  from_user_id : str
}.

(** The values of [self.pending_messages] and [self.content_cache]. *)
Record PendingShareEntry := { p_content : str; p_timestamp : Q }.

Record SummaryCacheEntry := { c_url : str; c_content : str; c_timestamp : Q }.

Record Message := { role : str; msg_content : str }.

Record Payload := { model : str; messages : list Message }.

(** The configuration attributes set by [__init__]. *)
Record Config := {
  jina_reader_base : str;
  max_words : Z;
  prompt : str;
  white_url_list : list str;
  black_url_list : list str;
  black_group_list : list str;
  auto_sum : bool;
  white_user_list : list str;
  black_user_list : list str;
  white_group_list : list str;
  pending_messages_timeout : Q;
  content_cache_timeout : Q;
  qa_trigger : str;
  open_ai_api_base : str;
  open_ai_api_key : str;
  open_ai_model : str;
  group_chat_prefix : list str
}.

(** What a remote call gives back: the text the code goes on with, or the
    message [str(e)] of the exception it raises.  For the GET the text is
    [response.text] of a response that passed [raise_for_status]; for the
    POST it is [response.json()["choices"][0]["message"]["content"]], and
    a transport error, a status that [raise_for_status] rejects and a body
    without that field are all [Raised]. *)
Inductive Outcome := Returned (text : str) | Raised (msg : str).

(** The collaborators outside the plugin.  Calls are answered by their
    position in the run: the [n]-th reading of [time.time()], the [n]-th
    GET, the [n]-th POST.  [get_group_name] and [get_user_nickname] stand
    for the directory lookups (with their memo tables), [html_unescape]
    for [html.unescape]. *)
Record Env := {
  clock : nat → Q;
  http_get : nat → str → Outcome;
  http_post : nat → str → list (str * str) → Payload → Outcome;
  get_group_name : str → str;
  get_user_nickname : str → str;
  html_unescape : str → str
}.

(** The two caches of the plugin, the reply and action of the event
    context, and the record of what was sent, requested and read so far
    (oldest first). *)
Record State := {
  pending_messages : gmap str PendingShareEntry;
  content_cache : gmap str SummaryCacheEntry;
  reply : option Reply;
  action : EventAction;
  sent : list Reply;
  gets : list str;
  posts : list (str * Payload);
  ticks : nat
}.

Definition set_pending_messages (pm : gmap str PendingShareEntry) (s : State) : State :=
  {| pending_messages := pm; content_cache := content_cache s;
     reply := reply s; action := action s; sent := sent s;
     gets := gets s; posts := posts s; ticks := ticks s |}.

Definition set_content_cache (cc : gmap str SummaryCacheEntry) (s : State) : State :=
  {| pending_messages := pending_messages s; content_cache := cc;
     reply := reply s; action := action s; sent := sent s;
     gets := gets s; posts := posts s; ticks := ticks s |}.

(** [e_context["reply"] = r; e_context.action = EventAction.BREAK_PASS] *)
Definition set_reply (r : Reply) (s : State) : State :=
  {| pending_messages := pending_messages s; content_cache := content_cache s;
     reply := Some r; action := BREAK_PASS; sent := sent s;
     gets := gets s; posts := posts s; ticks := ticks s |}.

(** [channel.send(r, e_context["context"])] *)
Definition channel_send (r : Reply) (s : State) : State :=
  {| pending_messages := pending_messages s; content_cache := content_cache s;
     reply := reply s; action := action s; sent := sent s ++ [r];
     gets := gets s; posts := posts s; ticks := ticks s |}.

Definition record_get (url : str) (s : State) : State :=
  {| pending_messages := pending_messages s; content_cache := content_cache s;
     reply := reply s; action := action s; sent := sent s;
     gets := gets s ++ [url]; posts := posts s; ticks := ticks s |}.

Definition record_post (url : str) (p : Payload) (s : State) : State :=
  {| pending_messages := pending_messages s; content_cache := content_cache s;
     reply := reply s; action := action s; sent := sent s;
     gets := gets s; posts := posts s ++ [(url, p)]; ticks := ticks s |}.

Definition tick (s : State) : State :=
  {| pending_messages := pending_messages s; content_cache := content_cache s;
     reply := reply s; action := action s; sent := sent s;
     gets := gets s; posts := posts s; ticks := S (ticks s) |}.

(** [time.time()] *)
Definition time_time (env : Env) (s : State) : Q * State :=
  (clock env (ticks s), tick s).

(** [x > y] on clock readings. *)
Definition Qgtb (x y : Q) : bool := negb (Qle_bool x y).

(** ** [_check_url]

    [_check_url] is the verdict computed from the parsed fields, that is,
    what the function returns when [urlparse] returns.  The function has
    no [try]: when [urlparse] raises, so does the validator, which is
    [_check_url_outcome] below. *)

Definition _check_url (cfg : Config) (target_url : str) : bool :=
  let stripped_url := strip target_url in
  let parsed_url := urlparse stripped_url in
  if negb (nonempty (scheme parsed_url)) || negb (nonempty (netloc parsed_url))
  then false
  else if existsb (λ black_url, startswith stripped_url black_url)
                  (black_url_list cfg)
  then false
  else if nonempty (white_url_list cfg)
          && negb (existsb (λ white_url, startswith stripped_url white_url)
                           (white_url_list cfg))
  then false
  else true.

(** The call of the validator: [None] when [urlparse] raises [ValueError]
    on the trimmed text, and the exception leaves the function; otherwise
    the verdict. *)
Definition _check_url_outcome (netloc_invalid : str → bool) (cfg : Config)
    (target_url : str) : option bool :=
  if urlparse_raises netloc_invalid (strip target_url) then None
  else Some (_check_url cfg target_url).

(** ** [_should_auto_summarize] *)

Definition _should_auto_summarize (cfg : Config) (chat_id : str) (is_group : bool) : bool :=
  if is_group then
    if member chat_id (black_group_list cfg) then false
    else if nonempty (white_group_list cfg) && member chat_id (white_group_list cfg)
    then true
    else auto_sum cfg
  else
    if member chat_id (black_user_list cfg) then false
    else if nonempty (white_user_list cfg) && member chat_id (white_user_list cfg)
    then true
    else auto_sum cfg.

(** ** [_clean_expired_cache]

    One reading of the clock; the keys of the entries older than the
    timeout are collected first and deleted afterwards, for each of the two
    dictionaries. *)

Definition expired_keys {A} (timestamp : A → Q) (current_time timeout : Q)
    (m : gmap str A) : list str :=
  (filter (λ kv, Qgtb (current_time - timestamp kv.2) timeout = true)
          (map_to_list m)).*1.

Definition _clean_expired_cache (env : Env) (cfg : Config) (s : State) : State :=
  let '(current_time, s) := time_time env s in
  let s := set_pending_messages
             (foldr delete (pending_messages s)
                (expired_keys p_timestamp current_time
                   (pending_messages_timeout cfg) (pending_messages s))) s in
  set_content_cache
    (foldr delete (content_cache s)
       (expired_keys c_timestamp current_time
          (content_cache_timeout cfg) (content_cache s))) s.

(** ** Requests *)

Definition _get_jina_url (cfg : Config) (target_url : str) : str :=
  jina_reader_base cfg ++ py "/" ++ target_url.

Definition _get_openai_chat_url (cfg : Config) : str :=
  open_ai_api_base cfg ++ py "/chat/completions".

Definition _get_openai_headers (cfg : Config) : list (str * str) :=
  [ (py "Authorization", py "Bearer " ++ open_ai_api_key cfg);
    (py "Host", netloc (urlparse (open_ai_api_base cfg)));
    (py "Content-Type", py "application/json") ].

Definition _get_openai_payload (cfg : Config) (target_url_content : str) : Payload :=
  let target_url_content := slice_to (max_words cfg) target_url_content in
  let sum_prompt :=
    prompt cfg ++ [10; 10] ++ py "'''" ++ target_url_content ++ py "'''" in
  {| model := open_ai_model cfg;
     messages := [ {| role := py "user"; msg_content := sum_prompt |} ] |}.

(** [requests.get(jina_url, headers=..., timeout=60)] with
    [raise_for_status] and the check for an empty body; the headers and
    the timeout are constants of the call. *)
Definition get_content (env : Env) (jina_url : str) (s : State) : Outcome * State :=
  let outcome := http_get env (length (gets s)) jina_url in
  let s := record_get jina_url s in
  match outcome with
  | Returned text =>
    if nonempty text then (Returned text, s)
    else (Raised (py "Empty response from jina reader"), s)
  | Raised msg => (Raised msg, s)
  end.

(** [requests.post(url, headers=..., json=payload, timeout=60)] with
    [raise_for_status] and the extraction of the first choice's content. *)
Definition chat_completion (env : Env) (cfg : Config) (payload : Payload)
    (s : State) : Outcome * State :=
  let openai_headers := _get_openai_headers cfg in
  let openai_chat_url := _get_openai_chat_url cfg in
  let outcome :=
    http_post env (length (posts s)) openai_chat_url openai_headers payload in
  (outcome, record_post openai_chat_url payload s).

(** How a [try] body ends: normally, or with an exception that reaches
    the handler of the enclosing [try]. *)
Inductive Try := Done (s : State) | Except (msg : str) (s : State).

(** ** [_process_summary] *)

Definition notice_summary : Reply :=
  {| reply_type := ReplyType.TEXT;
     reply_content := py "🎉正在为您生成总结，请稍候..." |}.

(** The body of the outer [try].  A failure of the GET is logged and
    raised again; a failure of the completion call is handled by the inner
    [except], which sets an error reply and does not raise. *)
Definition summary_body (env : Env) (cfg : Config) (content chat_id : str)
    (retry_count : nat) (skip_notice : bool) (s : State) : Try :=
  let s := if bool_decide (retry_count = 0%nat) && negb skip_notice
           then channel_send notice_summary s else s in
  let target_url := html_unescape env content in
  let jina_url := _get_jina_url cfg target_url in
  match get_content env jina_url s with
  | (Raised msg, s) => Except msg s
  | (Returned target_url_content, s) =>
    let target_url_content := slice_to (max_words cfg) target_url_content in
    let openai_payload := _get_openai_payload cfg target_url_content in
    match chat_completion env cfg openai_payload s with
    | (Returned summary, s) =>
      let s := set_reply {| reply_type := ReplyType.TEXT;
                            reply_content := summary |} s in
      let '(now, s) := time_time env s in
      Done (set_content_cache
              (<[chat_id := {| c_url := target_url;
                               c_content := target_url_content;
                               c_timestamp := now |}]> (content_cache s)) s)
    | (Raised msg, s) =>
      Done (set_reply {| reply_type := ReplyType.ERROR;
                         reply_content := py "内容总结出现错误: " ++ msg |} s)
    end
  end.

Equations? _process_summary (env : Env) (cfg : Config) (content chat_id : str)
    (retry_count : nat) (skip_notice : bool) (s : State) : State
    by wf (3 - retry_count)%nat lt :=
  _process_summary env cfg content chat_id retry_count skip_notice s
    with summary_body env cfg content chat_id retry_count skip_notice s := {
    | Done s' := s';
    | Except msg s' with decide (retry_count < 3)%nat := {
      | left _ :=
        _process_summary env cfg content chat_id (retry_count + 1) false s';
      | right _ :=
        set_reply {| reply_type := ReplyType.ERROR;
                     reply_content := py "无法获取该内容: " ++ msg |} s' } }.
Proof. lia. Qed.

(** ** [_process_question] *)

Definition reply_expired : Reply :=
  {| reply_type := ReplyType.TEXT;
     reply_content := py "总结内容已过期或不存在，请重新总结后重试。" |}.

Definition notice_question : Reply :=
  {| reply_type := ReplyType.TEXT;
     reply_content := py "🤔 正在思考您的问题，请稍候..." |}.

Definition qa_prompt (cfg : Config) (recent_content question : str) : str :=
  py "Given the content:" ++ [10] ++ py "'''"
  ++ slice_to (max_words cfg) recent_content ++ py "'''" ++ [10; 10]
  ++ py "Answer the question: " ++ question.

(** The cached content when there is an entry and it is fresh; the clock
    is read only when there is an entry. *)
Definition recent_content (env : Env) (cfg : Config) (chat_id : str)
    (s : State) : option str * State :=
  match content_cache s !! chat_id with
  | Some cache_data =>
    let '(now, s) := time_time env s in
    if Qle_bool (now - c_timestamp cache_data) (content_cache_timeout cfg)
    then (Some (c_content cache_data), s)
    else (None, s)
  | None => (None, s)
  end.

Definition question_body (env : Env) (cfg : Config) (question chat_id : str)
    (retry_count : nat) (s : State) : Try :=
  match recent_content env cfg chat_id s with
  | (None, s) => Done (set_reply reply_expired s)
  | (Some recent_content, s) =>
    let s := if bool_decide (retry_count = 0%nat)
             then channel_send notice_question s else s in
    let openai_payload :=
      {| model := open_ai_model cfg;
         messages := [ {| role := py "user";
                          msg_content := qa_prompt cfg recent_content question |} ] |} in
    match chat_completion env cfg openai_payload s with
    | (Returned answer, s) =>
      Done (set_reply {| reply_type := ReplyType.TEXT;
                         reply_content := answer |} s)
    | (Raised msg, s) => Except msg s
    end
  end.

Equations? _process_question (env : Env) (cfg : Config) (question chat_id : str)
    (retry_count : nat) (s : State) : State
    by wf (3 - retry_count)%nat lt :=
  _process_question env cfg question chat_id retry_count s
    with question_body env cfg question chat_id retry_count s := {
    | Done s' := s';
    | Except msg s' with decide (retry_count < 3)%nat := {
      | left _ := _process_question env cfg question chat_id (retry_count + 1) s';
      | right _ :=
        set_reply {| reply_type := ReplyType.ERROR;
                     reply_content := py "抱歉，处理您的问题时出错: " ++ msg |} s' } }.
Proof. lia. Qed.

(** ** [on_handle_context] *)

Definition reply_invalid_url : Reply :=
  {| reply_type := ReplyType.TEXT;
     reply_content := py "无效的URL或被禁止的URL。" |}.

(** The chat id: the group name or the user's nickname. *)
Definition chat_id_of (env : Env) (ev : Event) : str :=
  if is_group ev then get_group_name env (from_user_id ev)
  else get_user_nickname env (from_user_id ev).

(** The branch for [ContextType.SHARING], after the purge. *)
Definition handle_sharing (env : Env) (cfg : Config) (ev : Event)
    (chat_id : str) (should_auto_sum : bool) (s : State) : State :=
  let content := content ev in
  if negb (_check_url cfg content) then set_reply reply_invalid_url s
  else if is_group ev then
    if should_auto_sum then _process_summary env cfg content chat_id 0 false s
    else
      let '(now, s) := time_time env s in
      set_pending_messages
        (<[chat_id := {| p_content := content; p_timestamp := now |}]>
           (pending_messages s)) s
  else
    if should_auto_sum then _process_summary env cfg content chat_id 0 false s
    else s.

(** The effective text of a TEXT message: trimmed, and for a group message
    with the first matching prefix of [group_chat_prefix] removed. *)
Definition effective_text (cfg : Config) (ev : Event) : str :=
  let content := strip (content ev) in
  if is_group ev then strip_group_prefix (group_chat_prefix cfg) content
  else content.

Definition is_trigger (content : str) : bool := startswith content (py "总结").

(** The branch for [ContextType.TEXT], after the purge. *)
Definition handle_text (env : Env) (cfg : Config) (ev : Event)
    (chat_id : str) (s : State) : State :=
  let content := effective_text cfg ev in
  if negb (is_trigger content) then s
  else
    let clist := split content in
    let url := clist !! 1%nat in
    let otherwise :=
      match pending_messages s !! chat_id with
      | Some entry =>
        let cached_content := p_content entry in
        let s := set_pending_messages (delete chat_id (pending_messages s)) s in
        _process_summary env cfg cached_content chat_id 0 true s
      | None => s
      end in
    match url with
    | Some url =>
      if nonempty url && _check_url cfg url
      then _process_summary env cfg url chat_id 0 false s
      else otherwise
    | None => otherwise
    end.

Definition on_handle_context (env : Env) (cfg : Config) (ev : Event)
    (s : State) : State :=
  match ctype ev with
  | ContextType.OTHER => s
  | ContextType.SHARING =>
    let chat_id := chat_id_of env ev in
    let should_auto_sum := _should_auto_summarize cfg chat_id (is_group ev) in
    let s := _clean_expired_cache env cfg s in
    handle_sharing env cfg ev chat_id should_auto_sum s
  | ContextType.TEXT =>
    let chat_id := chat_id_of env ev in
    let s := _clean_expired_cache env cfg s in
    handle_text env cfg ev chat_id s
  end.

(** The framework hands every event a new context: no reply, and the
    action it starts with. *)
Definition new_context (s : State) : State :=
  {| pending_messages := pending_messages s; content_cache := content_cache s;
     reply := None; action := CONTINUE; sent := sent s;
     gets := gets s; posts := posts s; ticks := ticks s |}.

(** Events are handled one after the other, each to completion. *)
Definition handle_events (env : Env) (cfg : Config) (evs : list Event)
    (s : State) : State :=
  foldl (λ s ev, on_handle_context env cfg ev (new_context s)) s evs.

(** ** Default configuration *)

Definition default_prompt : str :=
  py "我需要对下面引号内文档进行总结，总结输出包括以下三个部分：" ++ [10]
  ++ py "📖 一句话总结" ++ [10]
  ++ py "🔑 关键要点,用数字序号列出3-5个文章的核心内容" ++ [10]
  ++ py "🏷 标签: #xx #xx" ++ [10]
  ++ py "请使用emoji让你的表达更生动" ++ [10; 10].

(** [DEFAULT_CONFIG] and the defaults of [__init__]; the three settings of
    the completion service and the prefixes of the main configuration have
    no default in the source and are arguments. *)
Definition DEFAULT_CONFIG (api_base api_key api_model : str)
    (prefixes : list str) : Config :=
  {| jina_reader_base := py "https://r.jina.ai";
     max_words := 8000;
     prompt := default_prompt;
     white_url_list := [];
     black_url_list := [ py "https://support.weixin.qq.com";
                         py "https://channels-aladin.wxqcloud.qq.com" ];
     black_group_list := [];
     auto_sum := true;
     white_user_list := [];
     black_user_list := [];
     white_group_list := [];
     pending_messages_timeout := 60;
     content_cache_timeout := 300;
     qa_trigger := py "问";
     open_ai_api_base := api_base;
     open_ai_api_key := api_key;
     open_ai_model := api_model;
     group_chat_prefix := prefixes |}.

(** The state of a plugin that has just been started. *)
Definition initial_state : State :=
  {| pending_messages := ∅; content_cache := ∅;
     reply := None; action := CONTINUE;
     sent := []; gets := []; posts := []; ticks := 0 |}.

(** ** Vocabulary of the properties *)

(** The message of the exception an extraction call ends with, if any:
    the one of the transport or status error, or the one for an empty
    body. *)
Definition get_failure (o : Outcome) : option str :=
  match o with
  | Raised msg => Some msg
  | Returned text =>
    if nonempty text then None else Some (py "Empty response from jina reader")
  end.

(** The state an attempt starts from, once the notice has been sent. *)
Definition after_notice (retry_count : nat) (skip_notice : bool) (s : State) : State :=
  if bool_decide (retry_count = 0%nat) && negb skip_notice
  then channel_send notice_summary s else s.

(** The state after the extraction request of an attempt. *)
Definition after_get (env : Env) (cfg : Config) (content : str)
    (rc : nat) (skip : bool) (s : State) : State :=
  record_get (_get_jina_url cfg (html_unescape env content))
    (after_notice rc skip s).

(** The completion request of an attempt whose extraction gave [text]. *)
Definition summary_payload (cfg : Config) (text : str) : Payload :=
  _get_openai_payload cfg (slice_to (max_words cfg) text).

(** How a run ends: with an error reply and the cache as it was, or with
    the summary as a text reply and the cache entry of the chat written
    from the extracted text of an attempt whose two calls succeeded. *)
Definition run_outcome (env : Env) (cfg : Config) (content chat_id : str)
    (s s' : State) : Prop :=
  ((∃ msg, reply s' = Some {| reply_type := ReplyType.ERROR;
                              reply_content := msg |})
   ∧ content_cache s' = content_cache s)
  ∨ (∃ n m t text summary,
       http_get env n (_get_jina_url cfg (html_unescape env content))
         = Returned text ∧
       nonempty text = true ∧
       http_post env m (_get_openai_chat_url cfg) (_get_openai_headers cfg)
         (summary_payload cfg text) = Returned summary ∧
       reply s' = Some {| reply_type := ReplyType.TEXT;
                          reply_content := summary |} ∧
       content_cache s' =
         <[chat_id := {| c_url := html_unescape env content;
                         c_content := slice_to (max_words cfg) text;
                         c_timestamp := t |}]> (content_cache s)).


(** A trigger without an inline URL the validator accepts: there is no
    second token, or the validator refuses it. *)
Definition no_inline_url (cfg : Config) (text : str) : bool :=
  match split text !! 1%nat with
  | Some url => negb (nonempty url && _check_url cfg url)
  | None => true
  end.

(** A text without any whitespace character. *)
Definition no_space (s : str) : bool := forallb (λ c, negb (is_space c)) s.

(** ** Sample configurations, environments and events *)

Definition set_auto_sum (b : bool) (cfg : Config) : Config :=
  {| jina_reader_base := jina_reader_base cfg; max_words := max_words cfg;
     prompt := prompt cfg; white_url_list := white_url_list cfg;
     black_url_list := black_url_list cfg;
     black_group_list := black_group_list cfg; auto_sum := b;
     white_user_list := white_user_list cfg;
     black_user_list := black_user_list cfg;
     white_group_list := white_group_list cfg;
     pending_messages_timeout := pending_messages_timeout cfg;
     content_cache_timeout := content_cache_timeout cfg;
     qa_trigger := qa_trigger cfg;
     open_ai_api_base := open_ai_api_base cfg;
     open_ai_api_key := open_ai_api_key cfg;
     open_ai_model := open_ai_model cfg;
     group_chat_prefix := group_chat_prefix cfg |}.

Definition set_url_lists (white black : list str) (cfg : Config) : Config :=
  {| jina_reader_base := jina_reader_base cfg; max_words := max_words cfg;
     prompt := prompt cfg; white_url_list := white;
     black_url_list := black;
     black_group_list := black_group_list cfg; auto_sum := auto_sum cfg;
     white_user_list := white_user_list cfg;
     black_user_list := black_user_list cfg;
     white_group_list := white_group_list cfg;
     pending_messages_timeout := pending_messages_timeout cfg;
     content_cache_timeout := content_cache_timeout cfg;
     qa_trigger := qa_trigger cfg;
     open_ai_api_base := open_ai_api_base cfg;
     open_ai_api_key := open_ai_api_key cfg;
     open_ai_model := open_ai_model cfg;
     group_chat_prefix := group_chat_prefix cfg |}.

(** The default configuration with a completion service and the group
    prefix [@bot]. *)
Definition bot_config : Config :=
  DEFAULT_CONFIG (py "https://api.example.com/v1") (py "sk-key")
    (py "gpt") [py "@bot"].

(** The same with automatic summaries switched off. *)
Definition manual_config : Config := set_auto_sum false bot_config.

(** An environment in which the clock always reads [now], every GET ends
    as [get] and every POST as [post]; names resolve to themselves and the
    texts at hand have no HTML entity. *)
Definition constant_env (now : Q) (get post : Outcome) : Env :=
  {| clock := λ _, now;
     http_get := λ _ _, get;
     http_post := λ _ _ _ _, post;
     get_group_name := λ raw_id, raw_id;
     get_user_nickname := λ raw_id, raw_id;
     html_unescape := λ text, text |}.

Definition text_event (text : str) (group : bool) (from : str) : Event :=
  {| ctype := ContextType.TEXT; content := text;
     is_group := group; from_user_id := from |}.

Definition sharing_event (url : str) (group : bool) (from : str) : Event :=
  {| ctype := ContextType.SHARING; content := url;
     is_group := group; from_user_id := from |}.

(** A configuration whose whitelist prefix lies under its blacklist
    prefix. *)
Definition overlapping_lists_config : Config :=
  set_url_lists [py "https://bad.example/ok"] [py "https://bad.example"]
    bot_config.

(** Environments: all calls succeed; every extraction fails; extraction
    succeeds and every completion call fails. *)
Definition working_env (now : Q) : Env :=
  constant_env now (Returned (py "page text")) (Returned (py "summary")).

Definition failing_get_env : Env :=
  constant_env 0 (Raised (py "503 Server Error")) (Returned (py "summary")).

Definition failing_post_env : Env :=
  constant_env 0 (Returned (py "page text")) (Raised (py "500 Server Error")).

Definition good_url : str := py "https://good.example/page".



(** A plugin holding the summary cache entry of [alice], written at
    time 0. *)
Definition alice_summary : SummaryCacheEntry :=
  {| c_url := good_url; c_content := py "page text"; c_timestamp := 0 |}.

Definition summarized_state : State :=
  set_content_cache {[ py "alice" := alice_summary ]} initial_state.

Definition question_event : Event :=
  text_event (py "问 What is the main point?") false (py "alice").

Definition answering_env : Env :=
  constant_env 10 (Returned (py "page text")) (Returned (py "The main point."))
  .

(** ** The directory lookups: [_get_user_nickname], [_get_group_name]

    The two functions ask the directory service for a display name and
    keep the names they were given in [user_nickname_cache] and
    [group_name_cache].  A response is the status code and, when
    [response.json()] succeeds, the two fields of the body the code reads:
    [ret] and [data].  For a user [data] is a list of contacts, for a group
    one contact; a contact may lack the key [nickName]. *)

Record Contact := { nickName : option str }.

Record DirBody (D : Type) := { dir_ret : option Z; dir_data : D }.

Arguments dir_ret {D} _.
Arguments dir_data {D} _.

(** [DirRaised]: [requests.post] raises.  [DirResponse code json]: the
    response has status [code]; [json] is [None] when [response.json()]
    raises. *)
Inductive DirOutcome (D : Type) :=
| DirRaised (msg : str)
| DirResponse (status_code : Z) (json : option (DirBody D)).

Arguments DirRaised {D} _.
Arguments DirResponse {D} _ _.

(** The directory service: the answer to the [n]-th request of the run.
    For a group, [data] is [None] when the field is missing or empty. *)
Record DirEnv := {
  getBriefInfo : nat → str → DirOutcome (list Contact);
  getChatroomInfo : nat → str → DirOutcome (option Contact)
}.

(** The two memo tables and the ids requested so far (oldest first). *)
Record Directory := {
  user_nickname_cache : gmap str str;
  group_name_cache : gmap str str;
  requested : list str
}.

Definition record_request (id : str) (d : Directory) : Directory :=
  {| user_nickname_cache := user_nickname_cache d;
     group_name_cache := group_name_cache d;
     requested := requested d ++ [id] |}.

Definition cache_nickname (id nickname : str) (d : Directory) : Directory :=
  {| user_nickname_cache := <[id := nickname]> (user_nickname_cache d);
     group_name_cache := group_name_cache d;
     requested := requested d |}.

Definition cache_group_name (id name : str) (d : Directory) : Directory :=
  {| user_nickname_cache := user_nickname_cache d;
     group_name_cache := <[id := name]> (group_name_cache d);
     requested := requested d |}.

Definition _get_user_nickname (denv : DirEnv) (user_id : str) (d : Directory)
    : str * Directory :=
  match user_nickname_cache d !! user_id with
  | Some nickname => (nickname, d)
  | None =>
    let outcome := getBriefInfo denv (length (requested d)) user_id in
    let d := record_request user_id d in
    match outcome with
    | DirRaised _ => (user_id, d)
    | DirResponse status_code json =>
      if bool_decide (status_code = 200%Z) then
        match json with
        | None => (user_id, d)
        | Some data =>
          if bool_decide (dir_ret data = Some 200%Z) then
            match dir_data data with
            | contact :: _ =>
              let nickname := default user_id (nickName contact) in
              (nickname, cache_nickname user_id nickname d)
            | [] => (user_id, d)
            end
          else (user_id, d)
        end
      else (user_id, d)
    end
  end.

(** The result is [None] where the source reaches the end of the function
    without a [return]. *)
Definition _get_group_name (denv : DirEnv) (group_id : str) (d : Directory)
    : option str * Directory :=
  match group_name_cache d !! group_id with
  | Some name => (Some name, d)
  | None =>
    let outcome := getChatroomInfo denv (length (requested d)) group_id in
    let d := record_request group_id d in
    match outcome with
    | DirRaised _ => (Some group_id, d)
    | DirResponse status_code json =>
      if bool_decide (status_code = 200%Z) then
        match json with
        | None => (Some group_id, d)
        | Some data =>
          if bool_decide (dir_ret data = Some 200%Z) then
            match dir_data data with
            | Some group_info =>
              match nickName group_info with
              | Some group_name =>
                if nonempty group_name
                then (Some group_name, cache_group_name group_id group_name d)
                else (Some group_id, d)
              | None => (Some group_id, d)
              end
            | None => (Some group_id, d)
            end
          else (Some group_id, d)
        end
      else (None, d)
    end
  end.

(** ** More sample data *)

Definition set_policy_lists (black_group white_group black_user white_user
    : list str) (cfg : Config) : Config :=
  {| jina_reader_base := jina_reader_base cfg; max_words := max_words cfg;
     prompt := prompt cfg; white_url_list := white_url_list cfg;
     black_url_list := black_url_list cfg;
     black_group_list := black_group; auto_sum := auto_sum cfg;
     white_user_list := white_user;
     black_user_list := black_user;
     white_group_list := white_group;
     pending_messages_timeout := pending_messages_timeout cfg;
     content_cache_timeout := content_cache_timeout cfg;
     qa_trigger := qa_trigger cfg;
     open_ai_api_base := open_ai_api_base cfg;
     open_ai_api_key := open_ai_api_key cfg;
     open_ai_model := open_ai_model cfg;
     group_chat_prefix := group_chat_prefix cfg |}.

(** The group [room] is on both group lists. *)
Definition listed_config : Config :=
  set_policy_lists [py "room"] [py "room"] [] [] bot_config.

(** Only URLs under [https://good.example] are allowed. *)
Definition whitelist_config : Config :=
  set_url_lists [py "https://good.example"] [] bot_config.

(** The first [k] extraction calls fail, the later ones return a page;
    every completion call succeeds. *)
Definition flaky_env (k : nat) : Env :=
  {| clock := λ _, 0%Q;
     http_get := λ n _, if bool_decide (n < k)%nat
                        then Raised (py "503 Server Error")
                        else Returned (py "page text");
     http_post := λ _ _ _ _, Returned (py "summary");
     get_group_name := λ raw_id, raw_id;
     get_user_nickname := λ raw_id, raw_id;
     html_unescape := λ text, text |}.

(** The clock reads 10 and every completion call fails. *)
Definition failing_answer_env : Env :=
  constant_env 10 (Returned (py "page text")) (Raised (py "500 Server Error")).

(** No netloc fails the further validation of [urlsplit]. *)
Definition no_netloc_invalid : str → bool := λ _, false.

Definition empty_directory : Directory :=
  {| user_nickname_cache := ∅; group_name_cache := ∅; requested := [] |}.

(** A directory service that knows everybody as [Alice] and every group as
    [Readers]. *)
Definition answering_directory : DirEnv :=
  {| getBriefInfo := λ _ _,
       DirResponse 200
         (Some {| dir_ret := Some 200%Z;
                  dir_data := [ {| nickName := Some (py "Alice") |} ] |});
     getChatroomInfo := λ _ _,
       DirResponse 200
         (Some {| dir_ret := Some 200%Z;
                  dir_data := Some {| nickName := Some (py "Readers") |} |}) |}.

(** A directory service that answers every request with status 502. *)
Definition unavailable_directory : DirEnv :=
  {| getBriefInfo := λ _ _, DirResponse 502 None;
     getChatroomInfo := λ _ _, DirResponse 502 None |}.

(** The completion request of a question about [recent]. *)
Definition question_payload (cfg : Config) (recent question : str) : Payload :=
  {| model := open_ai_model cfg;
     messages := [ {| role := py "user";
                      msg_content := qa_prompt cfg recent question |} ] |}.

(** The state a question attempt asks the completion service from: the
    clock was read, and the first attempt has sent its notice. *)
Definition after_question_notice (retry_count : nat) (s : State) : State :=
  if bool_decide (retry_count = 0%nat)
  then channel_send notice_question (tick s) else tick s.

(** * Properties *)

(** Reading a field of an updated state. *)
Ltac state_simpl :=
  cbn [pending_messages content_cache reply action sent gets posts ticks
       set_pending_messages set_content_cache set_reply channel_send
       record_get record_post tick new_context time_time].

(** ** Unfolding the two retry loops *)

Lemma _process_summary_eq env cfg content chat_id retry_count skip_notice s :
  _process_summary env cfg content chat_id retry_count skip_notice s =
  match summary_body env cfg content chat_id retry_count skip_notice s with
  | Done s' => s'
  | Except msg s' =>
    if decide (retry_count < 3)%nat
    then _process_summary env cfg content chat_id (retry_count + 1) false s'
    else set_reply {| reply_type := ReplyType.ERROR;
                      reply_content := py "无法获取该内容: " ++ msg |} s'
  end.
Proof.
  simp _process_summary.
  destruct (summary_body env cfg content chat_id retry_count skip_notice s);
    simpl; [reflexivity |].
  destruct (decide (retry_count < 3)%nat); reflexivity.
Qed.

Lemma _process_question_eq env cfg question chat_id retry_count s :
  _process_question env cfg question chat_id retry_count s =
  match question_body env cfg question chat_id retry_count s with
  | Done s' => s'
  | Except msg s' =>
    if decide (retry_count < 3)%nat
    then _process_question env cfg question chat_id (retry_count + 1) s'
    else set_reply {| reply_type := ReplyType.ERROR;
                      reply_content := py "抱歉，处理您的问题时出错: " ++ msg |} s'
  end.
Proof.
  simp _process_question.
  destruct (question_body env cfg question chat_id retry_count s);
    simpl; [reflexivity |].
  destruct (decide (retry_count < 3)%nat); reflexivity.
Qed.

(** ** The URL validator *)

Lemma existsb_elem_of {A} (f : A → bool) (l : list A) (x : A) :
  x ∈ l → f x = true → existsb f l = true.
Proof.
  intros Hin Hf. apply existsb_exists. exists x.
  split; [by apply list_elem_of_In | exact Hf].
Qed.

(** The verdict on a text that starts with a blacklist prefix. *)
Lemma check_url_blacklisted (cfg : Config) (u black_url : str) :
  black_url ∈ black_url_list cfg →
  startswith (strip u) black_url = true →
  _check_url cfg u = false.
Proof.
  intros Hin Hprefix. unfold _check_url. cbv zeta.
  destruct (negb (nonempty (scheme (urlparse (strip u))))
            || negb (nonempty (netloc (urlparse (strip u))))); [reflexivity |].
  match goal with
  | |- context [existsb ?f (black_url_list cfg)] =>
    assert (Hblack : existsb f (black_url_list cfg) = true)
      by (eapply existsb_elem_of; eassumption);
    rewrite Hblack
  end.
  reflexivity.
Qed.

(** C8. Blacklist precedence: for a text that starts with a configured
    blacklist prefix, the validator returns false whenever [urlparse]
    returns, whatever the whitelist holds, also when the text starts with
    a whitelist prefix; it fails to return only on a text on which
    [urlparse] raises [ValueError], and then the exception leaves it.  It
    never returns true.  The validator looks at the trimmed text
    [strip u]; a URL has no surrounding whitespace, so for a URL that is
    [u] itself. *)
Theorem C8_blacklist_precedence (netloc_invalid : str → bool) (cfg : Config)
    (u black_url : str) :
  black_url ∈ black_url_list cfg →
  startswith (strip u) black_url = true →
  _check_url_outcome netloc_invalid cfg u =
  if urlparse_raises netloc_invalid (strip u) then None else Some false.
Proof.
  intros Hin Hprefix. unfold _check_url_outcome.
  by rewrite (check_url_blacklisted cfg u black_url Hin Hprefix).
Qed.

(** ** Extraction failures and the retry bound *)

Lemma gets_after_notice rc skip s : gets (after_notice rc skip s) = gets s.
Proof. unfold after_notice. destruct (_ && _); reflexivity. Qed.

Lemma posts_after_notice rc skip s : posts (after_notice rc skip s) = posts s.
Proof. unfold after_notice. destruct (_ && _); reflexivity. Qed.

Lemma content_cache_after_notice rc skip s :
  content_cache (after_notice rc skip s) = content_cache s.
Proof. unfold after_notice. destruct (_ && _); reflexivity. Qed.

Lemma get_content_failure env url s msg :
  get_failure (http_get env (length (gets s)) url) = Some msg →
  get_content env url s = (Raised msg, record_get url s).
Proof.
  unfold get_content, get_failure.
  destruct (http_get env (length (gets s)) url) as [text | m].
  - destruct (nonempty text); [discriminate |]. by intros [= <-].
  - by intros [= <-].
Qed.

Lemma get_content_success env url s :
  get_failure (http_get env (length (gets s)) url) = None →
  ∃ text, http_get env (length (gets s)) url = Returned text ∧
          nonempty text = true ∧
          get_content env url s = (Returned text, record_get url s).
Proof.
  unfold get_content, get_failure.
  destruct (http_get env (length (gets s)) url) as [text | m]; [| discriminate].
  destruct (nonempty text) eqn:Hne; [| discriminate].
  intros _. by exists text.
Qed.

Lemma summary_body_failure env cfg content chat_id rc skip s msg :
  get_failure (http_get env (length (gets s))
                 (_get_jina_url cfg (html_unescape env content))) = Some msg →
  summary_body env cfg content chat_id rc skip s =
  Except msg (record_get (_get_jina_url cfg (html_unescape env content))
                (after_notice rc skip s)).
Proof.
  intros Hfail. unfold summary_body. fold (after_notice rc skip s).
  rewrite (get_content_failure _ _ _ msg); [reflexivity |].
  by rewrite gets_after_notice.
Qed.

(** A run whose extraction calls all fail, started at attempt number
    [rc] with [k] retries left. *)
Lemma always_failing_run env cfg content chat_id :
  (∀ n url, is_Some (get_failure (http_get env n url))) →
  ∀ (k rc : nat) skip s, (rc + k = 3)%nat →
  let jina_url := _get_jina_url cfg (html_unescape env content) in
  let s' := _process_summary env cfg content chat_id rc skip s in
  gets s' = gets s ++ replicate (S k) jina_url ∧
  posts s' = posts s ∧
  content_cache s' = content_cache s ∧
  action s' = BREAK_PASS ∧
  ∃ msg, get_failure (http_get env (length (gets s) + k) jina_url) = Some msg ∧
         reply s' = Some {| reply_type := ReplyType.ERROR;
                            reply_content := py "无法获取该内容: " ++ msg |}.
Proof.
  intros Hall k. induction k as [| k IH]; intros rc skip s Hrc jina_url s'.
  - destruct (Hall (length (gets s)) jina_url) as [msg Hmsg].
    subst s'. rewrite _process_summary_eq.
    rewrite (summary_body_failure _ _ _ _ _ _ _ msg Hmsg).
    destruct (decide (rc < 3)%nat); [lia |]. simpl.
    rewrite gets_after_notice, posts_after_notice, content_cache_after_notice.
    repeat split; try reflexivity.
    exists msg. by rewrite Nat.add_0_r.
  - destruct (Hall (length (gets s)) jina_url) as [msg Hmsg].
    subst s'. rewrite _process_summary_eq.
    rewrite (summary_body_failure _ _ _ _ _ _ _ msg Hmsg).
    destruct (decide (rc < 3)%nat); [| lia].
    destruct (IH (rc + 1)%nat false
                (record_get jina_url (after_notice rc skip s)) ltac:(lia))
      as (Hgets & Hposts & Hcache & Haction & msg' & Hmsg' & Hreply).
    fold jina_url. rewrite Hgets, Hposts, Hcache, Haction. simpl.
    rewrite gets_after_notice, posts_after_notice, content_cache_after_notice.
    repeat split; try reflexivity.
    + by rewrite <- app_assoc.
    + exists msg'. split; [| exact Hreply].
      rewrite <- Hmsg'. simpl. rewrite gets_after_notice, length_app. simpl.
      replace (length (gets s) + S k)%nat with (length (gets s) + 1 + k)%nat
        by lia.
      reflexivity.
Qed.

(** C4. Retry bound: when the extraction call fails every time it is made
    (an exception, a refused status or an empty body), a summarization
    makes exactly four extraction requests, the first and three retries,
    makes no completion request, and ends with an error-typed reply that
    carries the message of the fourth failure. *)
Theorem C4_retry_bound (env : Env) (cfg : Config) (content chat_id : str)
    (skip_notice : bool) (s : State) :
  (∀ n url, is_Some (get_failure (http_get env n url))) →
  let jina_url := _get_jina_url cfg (html_unescape env content) in
  let s' := _process_summary env cfg content chat_id 0 skip_notice s in
  gets s' = gets s ++ [jina_url; jina_url; jina_url; jina_url] ∧
  length (gets s') = (length (gets s) + 4)%nat ∧
  posts s' = posts s ∧
  action s' = BREAK_PASS ∧
  ∃ msg, get_failure (http_get env (length (gets s) + 3) jina_url) = Some msg ∧
         reply s' = Some {| reply_type := ReplyType.ERROR;
                            reply_content := py "无法获取该内容: " ++ msg |}.
Proof.
  intros Hall jina_url s'.
  destruct (always_failing_run env cfg content chat_id Hall 3 0 skip_notice s
              eq_refl) as (Hgets & Hposts & _ & Haction & Hreply).
  fold jina_url s' in Hgets, Hposts, Haction, Hreply.
  repeat split; try assumption.
  rewrite Hgets, length_app. reflexivity.
Qed.

(** ** Attempts whose extraction succeeds *)

Lemma summary_body_extracted env cfg content chat_id rc skip s text :
  http_get env (length (gets s))
    (_get_jina_url cfg (html_unescape env content)) = Returned text →
  nonempty text = true →
  summary_body env cfg content chat_id rc skip s =
  let s1 := record_post (_get_openai_chat_url cfg) (summary_payload cfg text)
              (after_get env cfg content rc skip s) in
  match http_post env (length (posts s)) (_get_openai_chat_url cfg)
          (_get_openai_headers cfg) (summary_payload cfg text) with
  | Returned summary =>
    Done (set_content_cache
            (<[chat_id := {| c_url := html_unescape env content;
                             c_content := slice_to (max_words cfg) text;
                             c_timestamp := clock env (ticks s) |}]>
               (content_cache s))
            (tick (set_reply {| reply_type := ReplyType.TEXT;
                                reply_content := summary |} s1)))
  | Raised msg =>
    Done (set_reply {| reply_type := ReplyType.ERROR;
                       reply_content := py "内容总结出现错误: " ++ msg |} s1)
  end.
Proof.
  intros Hget Hne. unfold summary_body. fold (after_notice rc skip s).
  unfold get_content. rewrite gets_after_notice, Hget, Hne.
  unfold chat_completion. state_simpl.
  rewrite posts_after_notice. fold (summary_payload cfg text).
  fold (after_get env cfg content rc skip s).
  destruct (http_post _ _ _ _ _) as [summary | msg]; [| reflexivity].
  state_simpl. unfold after_get. state_simpl.
  rewrite content_cache_after_notice.
  unfold after_notice.
  destruct (bool_decide (rc = 0%nat) && negb skip); reflexivity.
Qed.

(** C2 (as the code has it). An attempt whose extraction succeeds and
    whose completion call fails is the last attempt of the run: nothing is
    retried.  One extraction request and one completion request are made,
    the reply is error-typed and carries the message of that failure, and
    the content cache is as it was.  This holds at every attempt number,
    so also after earlier extraction failures. *)
Theorem C2_completion_failure_not_retried (env : Env) (cfg : Config)
    (content chat_id : str) (retry_count : nat) (skip_notice : bool)
    (s : State) (text msg : str) :
  let jina_url := _get_jina_url cfg (html_unescape env content) in
  http_get env (length (gets s)) jina_url = Returned text →
  nonempty text = true →
  http_post env (length (posts s)) (_get_openai_chat_url cfg)
    (_get_openai_headers cfg) (summary_payload cfg text) = Raised msg →
  let s' := _process_summary env cfg content chat_id retry_count skip_notice s in
  gets s' = gets s ++ [jina_url] ∧
  posts s' = posts s ++ [(_get_openai_chat_url cfg, summary_payload cfg text)] ∧
  reply s' = Some {| reply_type := ReplyType.ERROR;
                     reply_content := py "内容总结出现错误: " ++ msg |} ∧
  action s' = BREAK_PASS ∧
  content_cache s' = content_cache s.
Proof.
  intros jina_url Hget Hne Hpost s'. subst s'.
  rewrite _process_summary_eq.
  rewrite (summary_body_extracted _ _ _ _ _ _ _ text Hget Hne).
  cbv zeta. rewrite Hpost. unfold after_get. state_simpl.
  rewrite gets_after_notice, posts_after_notice, content_cache_after_notice.
  repeat split; reflexivity.
Qed.

(** ** The content cache over a whole run *)

Lemma summary_body_except_cache env cfg content chat_id rc skip s msg s1 :
  summary_body env cfg content chat_id rc skip s = Except msg s1 →
  content_cache s1 = content_cache s.
Proof.
  unfold summary_body. fold (after_notice rc skip s).
  unfold get_content.
  destruct (http_get env _ _) as [text | m].
  - destruct (nonempty text).
    + unfold chat_completion.
      destruct (http_post env _ _ _ _); discriminate.
    + intros [= _ <-]. state_simpl. apply content_cache_after_notice.
  - intros [= _ <-]. state_simpl. apply content_cache_after_notice.
Qed.

Lemma summary_run_outcome env cfg content chat_id :
  ∀ (k rc : nat) skip s, (3 - rc ≤ k)%nat →
  run_outcome env cfg content chat_id s
    (_process_summary env cfg content chat_id rc skip s).
Proof.
  intros k. induction k as [| k IH]; intros rc skip s Hk;
    rewrite _process_summary_eq.
  all: destruct (get_failure (http_get env (length (gets s))
                   (_get_jina_url cfg (html_unescape env content))))
         as [msg |] eqn:Hfail.
  all: try (rewrite (summary_body_failure _ _ _ _ _ _ _ msg Hfail)).
  all: try (apply get_content_success in Hfail as (text & Hget & Hne & _);
            rewrite (summary_body_extracted _ _ _ _ _ _ _ text Hget Hne);
            cbv zeta;
            destruct (http_post env (length (posts s)) _ _ _)
              as [summary | msg] eqn:Hpost;
            [ right; exists (length (gets s)), (length (posts s)),
                (clock env (ticks s)), text, summary;
              repeat split; try assumption; reflexivity
            | left; split; [eexists; reflexivity |];
              unfold after_get; state_simpl;
              apply content_cache_after_notice ]).
  - destruct (decide (rc < 3)%nat); [lia |].
    left. split; [eexists; reflexivity |].
    state_simpl. apply content_cache_after_notice.
  - destruct (decide (rc < 3)%nat).
    + specialize (IH (rc + 1)%nat false
        (record_get (_get_jina_url cfg (html_unescape env content))
           (after_notice rc skip s)) ltac:(lia)).
      unfold run_outcome in IH |- *. cbn [content_cache record_get] in IH.
      rewrite content_cache_after_notice in IH. exact IH.
    + left. split; [eexists; reflexivity |].
      state_simpl. apply content_cache_after_notice.
Qed.

(** C10. A summarization attempt that fails leaves the content cache
    unchanged.  An attempt that ends in an exception (and is retried or
    given up) hands on the cache it started with; and a whole run either
    ends with an error reply and the cache unchanged, or ends with the
    summary as its reply and then the entry of the chat was written from
    an attempt whose extraction and completion calls both succeeded. *)
Theorem C10_cache_written_only_on_success (env : Env) (cfg : Config)
    (content chat_id : str) (retry_count : nat) (skip_notice : bool)
    (s : State) :
  (∀ msg s1,
     summary_body env cfg content chat_id retry_count skip_notice s
       = Except msg s1 →
     content_cache s1 = content_cache s)
  ∧ run_outcome env cfg content chat_id s
      (_process_summary env cfg content chat_id retry_count skip_notice s).
Proof.
  split.
  - intros msg s1. apply summary_body_except_cache.
  - apply (summary_run_outcome env cfg content chat_id (3 - retry_count)).
    lia.
Qed.

(** ** The purge *)

Lemma Qgtb_true (x y : Q) : Qgtb x y = true ↔ (y < x)%Q.
Proof.
  unfold Qgtb. rewrite negb_true_iff. split.
  - intros Hb. apply Qnot_le_lt. intros Hle.
    apply Qle_bool_iff in Hle. congruence.
  - intros Hlt. destruct (Qle_bool x y) eqn:Hb; [| reflexivity].
    apply Qle_bool_iff in Hb. destruct (Qlt_not_le _ _ Hlt Hb).
Qed.

Lemma Qgtb_false (x y : Q) : Qgtb x y = false ↔ (x <= y)%Q.
Proof.
  unfold Qgtb. rewrite negb_false_iff. apply Qle_bool_iff.
Qed.

Lemma elem_of_expired_keys {A} (timestamp : A → Q) (now timeout : Q)
    (m : gmap str A) (k : str) :
  k ∈ expired_keys timestamp now timeout m ↔
  ∃ e, m !! k = Some e ∧ Qgtb (now - timestamp e) timeout = true.
Proof.
  unfold expired_keys. rewrite list_elem_of_fmap. split.
  - intros [[k' e] [-> Hin]]. apply list_elem_of_filter in Hin as [Hexp Hin].
    apply elem_of_map_to_list in Hin. by exists e.
  - intros (e & Hlook & Hexp). exists (k, e). split; [reflexivity |].
    apply list_elem_of_filter. split; [exact Hexp |].
    by apply elem_of_map_to_list.
Qed.

(** What the purge leaves of a dictionary: the entries that are not older
    than the timeout. *)
Lemma lookup_purged {A} (timestamp : A → Q) (now timeout : Q)
    (m : gmap str A) (k : str) :
  foldr delete m (expired_keys timestamp now timeout m) !! k =
  match m !! k with
  | Some e => if Qgtb (now - timestamp e) timeout then None else Some e
  | None => None
  end.
Proof.
  destruct (m !! k) as [e |] eqn:Hlook.
  - destruct (Qgtb (now - timestamp e) timeout) eqn:Hexp.
    + apply lookup_foldr_delete, elem_of_expired_keys. by exists e.
    + rewrite lookup_foldr_delete_not_elem_of; [exact Hlook |].
      intros (e' & Hlook' & Hexp')%elem_of_expired_keys. congruence.
  - destruct (foldr delete m _ !! k) as [e |] eqn:Hpurged; [| reflexivity].
    apply lookup_foldr_delete_Some in Hpurged as [_ Hpurged]. congruence.
Qed.

Lemma pending_messages_clean env cfg s :
  pending_messages (_clean_expired_cache env cfg s) =
  foldr delete (pending_messages s)
    (expired_keys p_timestamp (clock env (ticks s))
       (pending_messages_timeout cfg) (pending_messages s)).
Proof. reflexivity. Qed.

Lemma content_cache_clean env cfg s :
  content_cache (_clean_expired_cache env cfg s) =
  foldr delete (content_cache s)
    (expired_keys c_timestamp (clock env (ticks s))
       (content_cache_timeout cfg) (content_cache s)).
Proof. reflexivity. Qed.

Lemma other_fields_clean env cfg s :
  reply (_clean_expired_cache env cfg s) = reply s ∧
  action (_clean_expired_cache env cfg s) = action s ∧
  sent (_clean_expired_cache env cfg s) = sent s ∧
  gets (_clean_expired_cache env cfg s) = gets s ∧
  posts (_clean_expired_cache env cfg s) = posts s ∧
  ticks (_clean_expired_cache env cfg s) = S (ticks s).
Proof. repeat split; reflexivity. Qed.



(** ** The handler on a trigger without an inline URL *)

Lemma handle_text_take env cfg ev chat_id s :
  is_trigger (effective_text cfg ev) = true →
  no_inline_url cfg (effective_text cfg ev) = true →
  handle_text env cfg ev chat_id s =
  match pending_messages s !! chat_id with
  | Some entry =>
    _process_summary env cfg (p_content entry) chat_id 0 true
      (set_pending_messages (delete chat_id (pending_messages s)) s)
  | None => s
  end.
Proof.
  intros Htrigger Hnone. unfold handle_text. cbv zeta.
  rewrite Htrigger. cbn [negb]. unfold no_inline_url in Hnone.
  destruct (split (effective_text cfg ev) !! 1%nat) as [url |];
    [| reflexivity].
  apply negb_true_iff in Hnone. rewrite Hnone. reflexivity.
Qed.

Lemma on_handle_context_take env cfg ev s :
  ctype ev = ContextType.TEXT →
  is_trigger (effective_text cfg ev) = true →
  no_inline_url cfg (effective_text cfg ev) = true →
  on_handle_context env cfg ev s =
  let s1 := _clean_expired_cache env cfg s in
  match pending_messages s1 !! chat_id_of env ev with
  | Some entry =>
    _process_summary env cfg (p_content entry) (chat_id_of env ev) 0 true
      (set_pending_messages
         (delete (chat_id_of env ev) (pending_messages s1)) s1)
  | None => s1
  end.
Proof.
  intros Htype Htrigger Hnone. unfold on_handle_context. rewrite Htype.
  cbv zeta. by rewrite handle_text_take.
Qed.


(** ** Shares and the pending cache *)


Lemma on_handle_context_direct_share env cfg ev s :
  ctype ev = ContextType.SHARING →
  is_group ev = false →
  _check_url cfg (content ev) = true →
  _should_auto_summarize cfg (chat_id_of env ev) false = false →
  on_handle_context env cfg ev s = _clean_expired_cache env cfg s.
Proof.
  intros Htype Hdirect Hurl Hauto.
  unfold on_handle_context. rewrite Htype. cbv zeta.
  unfold handle_sharing. cbv zeta.
  rewrite Hurl, Hdirect, Hauto. reflexivity.
Qed.


(** ** Prefixes, trimming and the trigger *)

Lemma startswith_app (s p : str) :
  startswith s p = true → s = p ++ drop (length p) s.
Proof.
  revert s. induction p as [| a p IH]; intros s H; [reflexivity |].
  destruct s as [| b s]; [discriminate |].
  cbn [startswith] in H. apply andb_true_iff in H as [Hab Hrest].
  apply N.eqb_eq in Hab. subst b. cbn. f_equal. by apply IH.
Qed.

Lemma match_here_Some (prefix content rest : str) :
  match_here prefix content = Some rest →
  ∃ c tail, content = prefix ++ c :: tail ∧ is_space c = true ∧
            rest = lstrip tail.
Proof.
  unfold match_here. destruct (startswith content prefix) eqn:Hstart;
    [| discriminate].
  apply startswith_app in Hstart.
  destruct (drop (length prefix) content) as [| c tail]; [discriminate |].
  destruct (is_space c) eqn:Hc; [| discriminate].
  intros [= <-]. by exists c, tail.
Qed.

(** The pattern matches only a text in which the prefix, after optional
    leading whitespace, is followed by a whitespace character. *)
Lemma re_sub_prefix_Some (prefix content rest : str) :
  re_sub_prefix prefix content = Some rest →
  ∃ lead c tail, content = lead ++ prefix ++ c :: tail ∧
                 forallb is_space lead = true ∧ is_space c = true ∧
                 rest = lstrip tail.
Proof.
  revert rest. induction content as [| a content IH]; intros rest Hsub.
  - apply match_here_Some in Hsub as (c & tail & Heq & Hc & Hrest).
    by exists [], c, tail.
  - cbn [re_sub_prefix] in Hsub. destruct (is_space a) eqn:Ha.
    + destruct (re_sub_prefix prefix content) as [rest' |] eqn:Hrec.
      * injection Hsub as <-.
        destruct (IH rest' eq_refl) as (lead & c & tail & Heq & Hl & Hc & Hr).
        exists (a :: lead), c, tail. cbn. rewrite Ha, Hl.
        repeat split; try assumption. by f_equal.
      * apply match_here_Some in Hsub as (c & tail & Heq & Hc & Hrest).
        by exists [], c, tail.
    + apply match_here_Some in Hsub as (c & tail & Heq & Hc & Hrest).
      by exists [], c, tail.
Qed.

Lemma re_sub_prefix_no_space (prefix content : str) :
  no_space content = true → re_sub_prefix prefix content = None.
Proof.
  intros Hns. destruct (re_sub_prefix prefix content) as [rest |] eqn:Hsub;
    [| reflexivity].
  apply re_sub_prefix_Some in Hsub as (lead & c & tail & -> & _ & Hc & _).
  unfold no_space in Hns. rewrite !forallb_app in Hns. cbn in Hns.
  rewrite Hc in Hns. cbn in Hns.
  rewrite !andb_false_r in Hns. discriminate.
Qed.

Lemma strip_group_prefix_no_space (prefixes : list str) (content : str) :
  no_space content = true → strip_group_prefix prefixes content = content.
Proof.
  intros Hns. induction prefixes as [| prefix rest IH]; [reflexivity |].
  cbn. by rewrite re_sub_prefix_no_space.
Qed.

Lemma lstrip_no_space (s : str) : no_space s = true → lstrip s = s.
Proof.
  destruct s as [| c r]; [reflexivity |]. cbn.
  intros [Hc _]%andb_true_iff. apply negb_true_iff in Hc. by rewrite Hc.
Qed.

Lemma no_space_rev (s : str) : no_space s = true → no_space (rev s) = true.
Proof.
  unfold no_space. rewrite !forallb_forall. intros H c Hin.
  apply H. by apply in_rev.
Qed.

Lemma strip_no_space (s : str) : no_space s = true → strip s = s.
Proof.
  intros Hns. unfold strip, rstrip. rewrite (lstrip_no_space s Hns).
  rewrite (lstrip_no_space (rev s) (no_space_rev s Hns)). apply rev_involutive.
Qed.

Lemma py_summarize : py "总结" = [24635; 32467].
Proof. reflexivity. Qed.

Lemma no_space_summarize : no_space (py "总结") = true.
Proof. reflexivity. Qed.

(** A text made of a non-empty prefix and the keyword starts with the
    keyword only if the prefix does. *)
Lemma is_trigger_after_prefix (p : str) :
  p ≠ [] → startswith p (py "总结") = false →
  is_trigger (p ++ py "总结") = false.
Proof.
  unfold is_trigger. rewrite py_summarize. intros Hne Hp.
  destruct p as [| a [| b r]]; [done | |].
  - cbn [app startswith]. destruct (24635 =? a); reflexivity.
  - cbn [app startswith] in Hp |- *. exact Hp.
Qed.

Lemma on_handle_context_no_trigger env cfg ev s :
  ctype ev = ContextType.TEXT →
  is_trigger (effective_text cfg ev) = false →
  on_handle_context env cfg ev s = _clean_expired_cache env cfg s.
Proof.
  intros Htype Htrigger. unfold on_handle_context. rewrite Htype. cbv zeta.
  unfold handle_text. cbv zeta. by rewrite Htrigger.
Qed.

(** C9. In a group, a command prefix is removed only when a whitespace
    character follows it.  The pattern matches only texts in which the
    prefix is followed by whitespace; and a message made of a prefix
    immediately followed by the keyword, the prefix being non-empty,
    without whitespace and not itself starting with the keyword, keeps its
    text, is not a trigger, and is left without effect beyond the purge,
    whatever prefixes are configured. *)
Theorem C9_prefix_needs_whitespace (env : Env) (cfg : Config) (ev : Event)
    (s : State) (p : str) :
  ctype ev = ContextType.TEXT →
  is_group ev = true →
  p ≠ [] →
  no_space p = true →
  startswith p (py "总结") = false →
  content ev = p ++ py "总结" →
  (∀ text rest, re_sub_prefix p text = Some rest →
     ∃ lead c tail, text = lead ++ p ++ c :: tail ∧
                    forallb is_space lead = true ∧ is_space c = true ∧
                    rest = lstrip tail) ∧
  re_sub_prefix p (strip (content ev)) = None ∧
  effective_text cfg ev = p ++ py "总结" ∧
  is_trigger (effective_text cfg ev) = false ∧
  on_handle_context env cfg ev s = _clean_expired_cache env cfg s.
Proof.
  intros Htype Hgroup Hne Hns Hp Hcontent.
  assert (Hns' : no_space (p ++ py "总结") = true).
  { unfold no_space in *. rewrite forallb_app, Hns. reflexivity. }
  assert (Htext : effective_text cfg ev = p ++ py "总结").
  { unfold effective_text. rewrite Hgroup, Hcontent. cbv zeta.
    rewrite (strip_no_space _ Hns').
    by apply strip_group_prefix_no_space. }
  assert (Htrigger : is_trigger (effective_text cfg ev) = false).
  { rewrite Htext. by apply is_trigger_after_prefix. }
  repeat split.
  - apply re_sub_prefix_Some.
  - rewrite Hcontent, (strip_no_space _ Hns').
    by apply re_sub_prefix_no_space.
  - exact Htext.
  - exact Htrigger.
  - by apply on_handle_context_no_trigger.
Qed.

(** ** The trigger with an inline URL *)

(** C7. The group message [@bot 总结 https://example.com/a], with the
    configured prefix [@bot] and the default URL lists: the prefix and the
    whitespace after it are removed, the remaining text is a trigger, its
    second token is the inline URL [https://example.com/a], the validator
    accepts it, and the handler summarizes that URL. *)
Theorem C7_trigger_with_inline_url (env : Env) (cfg : Config) (ev : Event)
    (s : State) :
  ctype ev = ContextType.TEXT →
  is_group ev = true →
  content ev = py "@bot 总结 https://example.com/a" →
  group_chat_prefix cfg = [py "@bot"] →
  black_url_list cfg = black_url_list bot_config →
  white_url_list cfg = white_url_list bot_config →
  effective_text cfg ev = py "总结 https://example.com/a" ∧
  is_trigger (effective_text cfg ev) = true ∧
  split (effective_text cfg ev) !! 1%nat = Some (py "https://example.com/a") ∧
  _check_url cfg (py "https://example.com/a") = true ∧
  on_handle_context env cfg ev s =
    _process_summary env cfg (py "https://example.com/a") (chat_id_of env ev)
      0 false (_clean_expired_cache env cfg s).
Proof.
  intros Htype Hgroup Hcontent Hprefix Hblack Hwhite.
  assert (Htext : effective_text cfg ev = py "总结 https://example.com/a").
  { unfold effective_text. rewrite Hgroup, Hcontent, Hprefix.
    vm_compute. reflexivity. }
  assert (Htrigger : is_trigger (effective_text cfg ev) = true).
  { rewrite Htext. vm_compute. reflexivity. }
  assert (Hsplit : split (effective_text cfg ev) !! 1%nat
                   = Some (py "https://example.com/a")).
  { rewrite Htext. vm_compute. reflexivity. }
  assert (Hurl : _check_url cfg (py "https://example.com/a") = true).
  { unfold _check_url. rewrite Hblack, Hwhite. vm_compute. reflexivity. }
  repeat split; try assumption.
  unfold on_handle_context. rewrite Htype. cbv zeta.
  unfold handle_text. cbv zeta. rewrite Htrigger. cbn [negb].
  rewrite Hsplit, Hurl.
  change (nonempty (py "https://example.com/a")) with true.
  reflexivity.
Qed.

(** ** The question keyword *)

(** What [_process_question] does with a fresh cache entry and a
    completion call that succeeds: the progress reply, one completion
    request that embeds the cached content and the question, and the
    answer as a text reply. *)
Lemma _process_question_answers env cfg question chat_id s entry answer :
  content_cache s !! chat_id = Some entry →
  (clock env (ticks s) - c_timestamp entry <= content_cache_timeout cfg)%Q →
  let payload :=
    {| model := open_ai_model cfg;
       messages := [ {| role := py "user";
                        msg_content :=
                          qa_prompt cfg (c_content entry) question |} ] |} in
  http_post env (length (posts s)) (_get_openai_chat_url cfg)
    (_get_openai_headers cfg) payload = Returned answer →
  let s' := _process_question env cfg question chat_id 0 s in
  sent s' = sent s ++ [notice_question] ∧
  posts s' = posts s ++ [(_get_openai_chat_url cfg, payload)] ∧
  reply s' = Some {| reply_type := ReplyType.TEXT; reply_content := answer |} ∧
  action s' = BREAK_PASS.
Proof.
  intros Hlook Hfresh payload Hpost s'. subst s'.
  rewrite _process_question_eq. unfold question_body, recent_content.
  rewrite Hlook. state_simpl.
  apply Qle_bool_iff in Hfresh. rewrite Hfresh.
  rewrite (bool_decide_eq_true_2 (0%nat = 0%nat) eq_refl).
  unfold chat_completion. state_simpl.
  fold payload. rewrite Hpost. state_simpl.
  repeat split; reflexivity.
Qed.

(** C1 (what the code does at the failing input). The direct message
    [问 What is the main point?] starts with the question keyword of the
    configuration, and the chat has a summary cache entry that is fresh
    and stays after the purge; yet the handler ends without a reply,
    without a progress message and without a completion request: a text
    that does not start with the summarize keyword is dropped, and
    [_process_question] is never called.  Called on the same state,
    [_process_question] sends the progress reply, makes one completion
    request embedding the cached content and the question, and replies
    with the answer. *)
Theorem C1_question_keyword_ignored :
  startswith (strip (content question_event)) (qa_trigger bot_config) = true ∧
  content_cache
    (on_handle_context answering_env bot_config question_event
       summarized_state) !! py "alice" = Some alice_summary ∧
  reply (on_handle_context answering_env bot_config question_event
           summarized_state) = None ∧
  action (on_handle_context answering_env bot_config question_event
            summarized_state) = CONTINUE ∧
  sent (on_handle_context answering_env bot_config question_event
          summarized_state) = [] ∧
  posts (on_handle_context answering_env bot_config question_event
           summarized_state) = [] ∧
  sent (_process_question answering_env bot_config
          (py "What is the main point?") (py "alice") 0
          (_clean_expired_cache answering_env bot_config summarized_state))
    = [notice_question] ∧
  posts (_process_question answering_env bot_config
           (py "What is the main point?") (py "alice") 0
           (_clean_expired_cache answering_env bot_config summarized_state))
    = [(_get_openai_chat_url bot_config,
        {| model := open_ai_model bot_config;
           messages :=
             [ {| role := py "user";
                  msg_content :=
                    qa_prompt bot_config (py "page text")
                      (py "What is the main point?") |} ] |})] ∧
  reply (_process_question answering_env bot_config
           (py "What is the main point?") (py "alice") 0
           (_clean_expired_cache answering_env bot_config summarized_state))
    = Some {| reply_type := ReplyType.TEXT;
              reply_content := py "The main point." |}.
Proof.
  repeat split; vm_compute; reflexivity.
Qed.

(** ** Counterexample to the retry of completion failures *)

(** C2 (counterexample). Every extraction call returns a page and every
    completion call fails; the run makes one extraction request and one
    completion request, not four, and ends with the error reply of the
    completion step. *)
Lemma C2_counterexample :
  (∀ n url, http_get failing_post_env n url = Returned (py "page text")) ∧
  (∀ n url headers payload,
     http_post failing_post_env n url headers payload
     = Raised (py "500 Server Error")) ∧
  length (gets (_process_summary failing_post_env bot_config good_url
                  (py "alice") 0 false initial_state)) = 1%nat ∧
  length (posts (_process_summary failing_post_env bot_config good_url
                   (py "alice") 0 false initial_state)) = 1%nat ∧
  length (posts (_process_summary failing_post_env bot_config good_url
                   (py "alice") 0 false initial_state)) ≠ 4%nat ∧
  reply (_process_summary failing_post_env bot_config good_url
           (py "alice") 0 false initial_state)
    = Some {| reply_type := ReplyType.ERROR;
              reply_content := py "内容总结出现错误: 500 Server Error" |}.
Proof.
  repeat split; try (vm_compute; reflexivity).
  vm_compute. discriminate.
Qed.

(** ** Shares in a direct chat *)

(** C3 (what the code does at the failing input). With automatic
    summaries switched off, [alice] shares a valid URL.  In a direct chat
    the handler stores nothing: the pending cache stays empty, and the
    message [总结] she sends next finds nothing to summarize.  The same
    share in a group of that name is stored under the chat id with the
    time of its arrival. *)
Theorem C3_direct_share_not_cached :
  _check_url manual_config good_url = true ∧
  _should_auto_summarize manual_config (py "alice") false = false ∧
  _should_auto_summarize manual_config (py "alice") true = false ∧
  pending_messages
    (on_handle_context (working_env 5) manual_config
       (sharing_event good_url false (py "alice")) initial_state) = ∅ ∧
  reply
    (handle_events (working_env 5) manual_config
       [sharing_event good_url false (py "alice");
        text_event (py "总结") false (py "alice")] initial_state) = None ∧
  gets
    (handle_events (working_env 5) manual_config
       [sharing_event good_url false (py "alice");
        text_event (py "总结") false (py "alice")] initial_state) = [] ∧
  pending_messages
    (on_handle_context (working_env 5) manual_config
       (sharing_event good_url true (py "alice")) initial_state)
    !! py "alice" = Some {| p_content := good_url; p_timestamp := 5 |} ∧
  gets
    (handle_events (working_env 5) manual_config
       [sharing_event good_url true (py "alice");
        text_event (py "总结") true (py "alice")] initial_state)
    = [_get_jina_url manual_config good_url].
Proof.
  repeat split; vm_compute; reflexivity.
Qed.

(** * The properties at sample inputs *)

Lemma C8_blacklist_precedence_witness :
  py "https://bad.example" ∈ black_url_list overlapping_lists_config ∧
  startswith (strip (py "https://bad.example/ok/page"))
    (py "https://bad.example") = true ∧
  existsb (startswith (strip (py "https://bad.example/ok/page")))
    (white_url_list overlapping_lists_config) = true ∧
  urlparse_raises no_netloc_invalid (strip (py "https://bad.example/ok/page"))
    = false ∧
  _check_url_outcome no_netloc_invalid overlapping_lists_config
    (py "https://bad.example/ok/page") = Some false.
Proof.
  assert (Hin : py "https://bad.example"
                ∈ black_url_list overlapping_lists_config)
    by apply list_elem_of_here.
  assert (Hprefix : startswith (strip (py "https://bad.example/ok/page"))
                      (py "https://bad.example") = true)
    by (vm_compute; reflexivity).
  assert (Hparse : urlparse_raises no_netloc_invalid
                     (strip (py "https://bad.example/ok/page")) = false)
    by (vm_compute; reflexivity).
  split; [exact Hin |]. split; [exact Hprefix |].
  split; [vm_compute; reflexivity |]. split; [exact Hparse |].
  rewrite (C8_blacklist_precedence no_netloc_invalid overlapping_lists_config
             (py "https://bad.example/ok/page") (py "https://bad.example")
             Hin Hprefix).
  rewrite Hparse. reflexivity.
Defined.

Lemma C4_retry_bound_witness :
  (∀ n url, is_Some (get_failure (http_get failing_get_env n url))) ∧
  length (gets (_process_summary failing_get_env bot_config good_url
                  (py "alice") 0 false initial_state)) = 4%nat ∧
  posts (_process_summary failing_get_env bot_config good_url
           (py "alice") 0 false initial_state) = [].
Proof.
  assert (Hall : ∀ n url,
             is_Some (get_failure (http_get failing_get_env n url))).
  { intros n url. exists (py "503 Server Error"). reflexivity. }
  split; [exact Hall |].
  destruct (C4_retry_bound failing_get_env bot_config good_url (py "alice")
              false initial_state Hall) as (_ & Hlen & Hposts & _).
  split; [exact Hlen | exact Hposts].
Defined.

Lemma C2_completion_failure_not_retried_witness :
  http_get failing_post_env (length (gets initial_state))
    (_get_jina_url bot_config (html_unescape failing_post_env good_url))
    = Returned (py "page text") ∧
  nonempty (py "page text") = true ∧
  http_post failing_post_env (length (posts initial_state))
    (_get_openai_chat_url bot_config) (_get_openai_headers bot_config)
    (summary_payload bot_config (py "page text"))
    = Raised (py "500 Server Error") ∧
  posts (_process_summary failing_post_env bot_config good_url (py "alice")
           0 false initial_state)
    = posts initial_state
      ++ [(_get_openai_chat_url bot_config,
           summary_payload bot_config (py "page text"))].
Proof.
  split; [reflexivity |]. split; [reflexivity |]. split; [reflexivity |].
  exact (proj1 (proj2
    (C2_completion_failure_not_retried failing_post_env bot_config good_url
       (py "alice") 0 false initial_state (py "page text")
       (py "500 Server Error") eq_refl eq_refl eq_refl))).
Defined.



Lemma C7_trigger_with_inline_url_witness :
  content (text_event (py "@bot 总结 https://example.com/a") true (py "room"))
    = py "@bot 总结 https://example.com/a" ∧
  group_chat_prefix bot_config = [py "@bot"] ∧
  effective_text bot_config
    (text_event (py "@bot 总结 https://example.com/a") true (py "room"))
    = py "总结 https://example.com/a" ∧
  _check_url bot_config (py "https://example.com/a") = true ∧
  on_handle_context (working_env 5) bot_config
    (text_event (py "@bot 总结 https://example.com/a") true (py "room"))
    initial_state
  = _process_summary (working_env 5) bot_config (py "https://example.com/a")
      (chat_id_of (working_env 5)
         (text_event (py "@bot 总结 https://example.com/a") true (py "room")))
      0 false
      (_clean_expired_cache (working_env 5) bot_config initial_state).
Proof.
  assert (Htype : ctype (text_event (py "@bot 总结 https://example.com/a")
                           true (py "room")) = ContextType.TEXT)
    by reflexivity.
  assert (Hgroup : is_group (text_event (py "@bot 总结 https://example.com/a")
                               true (py "room")) = true)
    by reflexivity.
  assert (Hcontent : content (text_event (py "@bot 总结 https://example.com/a")
                                true (py "room"))
                     = py "@bot 总结 https://example.com/a")
    by reflexivity.
  assert (Hprefix : group_chat_prefix bot_config = [py "@bot"])
    by reflexivity.
  assert (Hblack : black_url_list bot_config = black_url_list bot_config)
    by reflexivity.
  assert (Hwhite : white_url_list bot_config = white_url_list bot_config)
    by reflexivity.
  destruct (C7_trigger_with_inline_url (working_env 5) bot_config
              (text_event (py "@bot 总结 https://example.com/a") true
                 (py "room"))
              initial_state Htype Hgroup Hcontent Hprefix Hblack Hwhite)
    as (Htext & _ & _ & Hurl & Hhandler).
  split; [exact Hcontent |]. split; [exact Hprefix |].
  split; [exact Htext |]. split; [exact Hurl | exact Hhandler].
Defined.

Lemma C9_prefix_needs_whitespace_witness :
  py "@bot" ≠ [] ∧
  no_space (py "@bot") = true ∧
  startswith (py "@bot") (py "总结") = false ∧
  content (text_event (py "@bot总结") true (py "room"))
    = py "@bot" ++ py "总结" ∧
  effective_text bot_config (text_event (py "@bot总结") true (py "room"))
    = py "@bot" ++ py "总结" ∧
  is_trigger (effective_text bot_config
                (text_event (py "@bot总结") true (py "room"))) = false ∧
  on_handle_context (working_env 5) bot_config
    (text_event (py "@bot总结") true (py "room")) initial_state
  = _clean_expired_cache (working_env 5) bot_config initial_state.
Proof.
  assert (Hne : py "@bot" ≠ []) by (vm_compute; discriminate).
  assert (Hns : no_space (py "@bot") = true) by (vm_compute; reflexivity).
  assert (Hp : startswith (py "@bot") (py "总结") = false)
    by (vm_compute; reflexivity).
  assert (Hcontent : content (text_event (py "@bot总结") true (py "room"))
                     = py "@bot" ++ py "总结") by (vm_compute; reflexivity).
  destruct (C9_prefix_needs_whitespace (working_env 5) bot_config
              (text_event (py "@bot总结") true (py "room")) initial_state
              (py "@bot") eq_refl eq_refl Hne Hns Hp Hcontent)
    as (_ & _ & Htext & Htrigger & Hhandler).
  repeat split; assumption.
Defined.

(** * Further properties of the plugin *)

(** ** The auto-summarize policy *)

Lemma member_true (x : str) (l : list str) : x ∈ l → member x l = true.
Proof. intros Hin. unfold member. by apply bool_decide_eq_true_2. Qed.

Lemma member_nonempty (x : str) (l : list str) :
  member x l = true → nonempty l = true.
Proof.
  unfold member. intros Hin%bool_decide_eq_true_1.
  destruct l; [by apply not_elem_of_nil in Hin | reflexivity].
Qed.

(** X1. Blacklist precedence of the policy: a chat on the blacklist of its
    kind (groups or users) is never summarized automatically, also when it
    is on the whitelist and [auto_sum] is on. *)
Theorem policy_blacklist_wins (cfg : Config) (chat_id : str) (group : bool) :
  chat_id ∈ (if group then black_group_list cfg else black_user_list cfg) →
  _should_auto_summarize cfg chat_id group = false.
Proof.
  intros Hin. unfold _should_auto_summarize.
  destruct group; by rewrite (member_true _ _ Hin).
Qed.

(** X2. The policy in closed form: a chat is summarized automatically
    exactly when it is not on the blacklist of its kind and is on the
    whitelist of its kind or [auto_sum] is on.  So the whitelist overrides
    [auto_sum = False], and a chat on neither list gets [auto_sum]. *)
Theorem policy_closed_form (cfg : Config) (chat_id : str) (group : bool) :
  _should_auto_summarize cfg chat_id group =
  if group
  then negb (member chat_id (black_group_list cfg))
       && (member chat_id (white_group_list cfg) || auto_sum cfg)
  else negb (member chat_id (black_user_list cfg))
       && (member chat_id (white_user_list cfg) || auto_sum cfg).
Proof.
  unfold _should_auto_summarize. destruct group.
  - destruct (member chat_id (black_group_list cfg)); [reflexivity |].
    destruct (member chat_id (white_group_list cfg)) eqn:Hw.
    + by rewrite (member_nonempty _ _ Hw).
    + by rewrite andb_false_r.
  - destruct (member chat_id (black_user_list cfg)); [reflexivity |].
    destruct (member chat_id (white_user_list cfg)) eqn:Hw.
    + by rewrite (member_nonempty _ _ Hw).
    + by rewrite andb_false_r.
Qed.

(** ** More on the URL validator *)

Lemma existsb_none {A} (f : A → bool) (l : list A) :
  (∀ x, x ∈ l → f x = false) → existsb f l = false.
Proof.
  intros Hall. induction l as [| a l IH]; [reflexivity |].
  cbn. rewrite (Hall a) by apply list_elem_of_here.
  apply IH. intros x Hx. apply Hall. by apply list_elem_of_further.
Qed.

(** The verdict on a text outside a non-empty whitelist. *)
Lemma check_url_not_whitelisted (cfg : Config) (u : str) :
  white_url_list cfg ≠ [] →
  (∀ white_url, white_url ∈ white_url_list cfg →
                startswith (strip u) white_url = false) →
  _check_url cfg u = false.
Proof.
  intros Hne Hnone. unfold _check_url. cbv zeta.
  destruct (negb (nonempty (scheme (urlparse (strip u))))
            || negb (nonempty (netloc (urlparse (strip u))))); [reflexivity |].
  destruct (existsb _ (black_url_list cfg)); [reflexivity |].
  match goal with
  | |- context [existsb ?f (white_url_list cfg)] =>
    assert (Hwhite : existsb f (white_url_list cfg) = false)
      by (apply existsb_none; exact Hnone);
    rewrite Hwhite
  end.
  destruct (white_url_list cfg); [done | reflexivity].
Qed.

(** X3. Whitelist gate: with a non-empty whitelist, for a text whose
    trimmed form starts with none of its prefixes the validator returns
    false whenever [urlparse] returns, whatever the blacklist holds; it
    fails to return only on a text on which [urlparse] raises
    [ValueError].  It never returns true. *)
Theorem whitelist_gate (netloc_invalid : str → bool) (cfg : Config)
    (u : str) :
  white_url_list cfg ≠ [] →
  (∀ white_url, white_url ∈ white_url_list cfg →
                startswith (strip u) white_url = false) →
  _check_url_outcome netloc_invalid cfg u =
  if urlparse_raises netloc_invalid (strip u) then None else Some false.
Proof.
  intros Hne Hnone. unfold _check_url_outcome.
  by rewrite (check_url_not_whitelisted cfg u Hne Hnone).
Qed.

(** What lies in a trimmed text lies in the text. *)
Lemma elem_of_lstrip (c : N) (s : str) : c ∈ lstrip s → c ∈ s.
Proof.
  induction s as [| a s IH]; [done |]. cbn.
  destruct (is_space a); [| done].
  intros Hin. apply list_elem_of_further. by apply IH.
Qed.

Lemma elem_of_rev (c : N) (s : str) : c ∈ rev s ↔ c ∈ s.
Proof. rewrite !list_elem_of_In. symmetry. apply in_rev. Qed.

Lemma elem_of_strip (c : N) (s : str) : c ∈ strip s → c ∈ s.
Proof.
  unfold strip, rstrip. intros Hin.
  apply elem_of_lstrip, elem_of_rev, elem_of_lstrip, elem_of_rev, Hin.
Qed.

Lemma elem_of_lstrip_c0 (c : N) (s : str) : c ∈ lstrip_c0 s → c ∈ s.
Proof.
  induction s as [| a s IH]; [done |]. cbn.
  destruct (a <=? 32); [| done].
  intros Hin. apply list_elem_of_further. by apply IH.
Qed.

Lemma find_char_None (c : N) (s : str) : c ∉ s → find_char c s = None.
Proof.
  induction s as [| a s IH]; [reflexivity |].
  intros Hnot. apply not_elem_of_cons in Hnot as [Hne Hnot]. cbn.
  destruct (a =? c) eqn:Heq; [apply N.eqb_eq in Heq; congruence |].
  by rewrite IH.
Qed.

(** The scheme [urlparse] finds. *)
Lemma urlparse_scheme (u : str) :
  scheme (urlparse u) =
  match find_char 58 (remove_unsafe (lstrip_c0 u)) with
  | Some (c :: before, _) =>
    if is_ascii_alpha c && forallb is_scheme_char (c :: before)
    then map ascii_lower (c :: before) else []
  | _ => []
  end.
Proof.
  unfold urlparse. cbv zeta.
  destruct (find_char 58 (remove_unsafe (lstrip_c0 u))) as [[[| c before] after] |].
  all: try destruct (is_ascii_alpha c && forallb is_scheme_char (c :: before)).
  all: repeat match goal with
       | |- context [match ?x with _ => _ end] => destruct x
       end; reflexivity.
Qed.

(** The verdict on a text without a colon: it has no scheme. *)
Lemma check_url_without_colon (cfg : Config) (u : str) :
  58 ∉ u → _check_url cfg u = false.
Proof.
  intros Hnot. unfold _check_url. cbv zeta.
  rewrite urlparse_scheme, find_char_None; [reflexivity |].
  intros Hin. apply Hnot. apply elem_of_strip, elem_of_lstrip_c0.
  unfold remove_unsafe in Hin.
  by apply list_elem_of_filter in Hin as [_ Hin].
Qed.

(** X4. A text without a colon is never accepted, whatever the lists
    hold: it has no scheme, so the validator returns false whenever
    [urlparse] returns (a bare host name or path is not a URL for the
    plugin); it fails to return only on a text on which [urlparse] raises
    [ValueError], such as [//[]. *)
Theorem check_url_needs_colon (netloc_invalid : str → bool) (cfg : Config)
    (u : str) :
  58 ∉ u →
  _check_url_outcome netloc_invalid cfg u =
  if urlparse_raises netloc_invalid (strip u) then None else Some false.
Proof.
  intros Hnot. unfold _check_url_outcome.
  by rewrite (check_url_without_colon cfg u Hnot).
Qed.

(** The validator raises on a netloc with an unbalanced bracket, whatever
    the further validation of the library: a blacklisted text, and a text
    without a colon. *)
Lemma check_url_raises_on_unbalanced_bracket (netloc_invalid : str → bool) :
  _check_url_outcome netloc_invalid bot_config
    (py "https://support.weixin.qq.com[") = None
  ∧ _check_url_outcome netloc_invalid bot_config (py "//[") = None.
Proof. split; reflexivity. Qed.

Lemma lstrip_app_spaces (lead x : str) :
  forallb is_space lead = true → lstrip (lead ++ x) = lstrip x.
Proof.
  induction lead as [| a lead IH]; [reflexivity |]. cbn.
  intros [Ha Hlead]%andb_true_iff. rewrite Ha. by apply IH.
Qed.

Lemma lstrip_spaces (x : str) : forallb is_space x = true → lstrip x = [].
Proof.
  intros Hx. rewrite <- (app_nil_r x). by rewrite lstrip_app_spaces.
Qed.

Lemma lstrip_app_empty (x y : str) :
  lstrip x = [] → lstrip (x ++ y) = lstrip y.
Proof.
  induction x as [| a x IH]; [reflexivity |]. cbn.
  destruct (is_space a); [exact IH | discriminate].
Qed.

Lemma lstrip_app_nonempty (x y : str) :
  lstrip x ≠ [] → lstrip (x ++ y) = lstrip x ++ y.
Proof.
  induction x as [| a x IH]; [done |]. cbn.
  destruct (is_space a); [exact IH | reflexivity].
Qed.

Lemma forallb_rev {A} (f : A → bool) (l : list A) :
  forallb f l = true → forallb f (rev l) = true.
Proof.
  rewrite !forallb_forall. intros H x Hx. apply H. by apply in_rev.
Qed.

Lemma rstrip_app_spaces (x trail : str) :
  forallb is_space trail = true → rstrip (x ++ trail) = rstrip x.
Proof.
  intros Htrail. unfold rstrip. rewrite rev_app_distr.
  by rewrite lstrip_app_spaces by by apply forallb_rev.
Qed.

(** Trimming drops whitespace put around a text. *)
Lemma strip_surrounded (lead u trail : str) :
  forallb is_space lead = true → forallb is_space trail = true →
  strip (lead ++ u ++ trail) = strip u.
Proof.
  intros Hlead Htrail. unfold strip.
  rewrite (lstrip_app_spaces lead _ Hlead).
  destruct (lstrip u) as [| c r] eqn:Hu.
  - rewrite (lstrip_app_empty u trail Hu).
    by rewrite (lstrip_spaces trail Htrail).
  - rewrite lstrip_app_nonempty by (rewrite Hu; discriminate).
    rewrite Hu. by apply rstrip_app_spaces.
Qed.

(** X5. The validator ignores whitespace around the URL: a text gets the
    same verdict with any whitespace put before and after it. *)
Theorem check_url_ignores_surrounding_whitespace (cfg : Config)
    (lead u trail : str) :
  forallb is_space lead = true →
  forallb is_space trail = true →
  _check_url cfg (lead ++ u ++ trail) = _check_url cfg u.
Proof.
  intros Hlead Htrail. unfold _check_url.
  by rewrite (strip_surrounded lead u trail Hlead Htrail).
Qed.

(** ** More on the purge *)

(** X6. The purge removes exactly the entries older than their timeout,
    in both caches: an entry is there after the purge if and only if it
    was there before and its age, at the one reading of the clock, is at
    most the timeout of its cache. *)
Theorem purge_keeps_exactly_fresh (env : Env) (cfg : Config) (s : State)
    (chat_id : str) :
  (∀ entry,
     pending_messages (_clean_expired_cache env cfg s) !! chat_id = Some entry
     ↔ pending_messages s !! chat_id = Some entry
       ∧ (clock env (ticks s) - p_timestamp entry
          <= pending_messages_timeout cfg)%Q)
  ∧ (∀ entry,
     content_cache (_clean_expired_cache env cfg s) !! chat_id = Some entry
     ↔ content_cache s !! chat_id = Some entry
       ∧ (clock env (ticks s) - c_timestamp entry
          <= content_cache_timeout cfg)%Q).
Proof.
  split; intros entry.
  - rewrite pending_messages_clean, lookup_purged.
    destruct (pending_messages s !! chat_id) as [e |];
      [| split; [discriminate | intros [? _]; discriminate]].
    destruct (Qgtb _ _) eqn:Hage.
    + apply Qgtb_true in Hage. split; [discriminate |].
      intros [[= ->] Hle]. destruct (Qlt_not_le _ _ Hage Hle).
    + apply Qgtb_false in Hage. split; [intros [= ->]; by split |].
      by intros [-> _].
  - rewrite content_cache_clean, lookup_purged.
    destruct (content_cache s !! chat_id) as [e |];
      [| split; [discriminate | intros [? _]; discriminate]].
    destruct (Qgtb _ _) eqn:Hage.
    + apply Qgtb_true in Hage. split; [discriminate |].
      intros [[= ->] Hle]. destruct (Qlt_not_le _ _ Hage Hle).
    + apply Qgtb_false in Hage. split; [intros [= ->]; by split |].
      by intros [-> _].
Qed.

(** ** More on the summarization run *)

Lemma after_notice_retry rc skip s : after_notice (rc + 1) skip s = s.
Proof.
  unfold after_notice. by rewrite bool_decide_eq_false_2 by lia.
Qed.

Lemma pending_messages_after_notice rc skip s :
  pending_messages (after_notice rc skip s) = pending_messages s.
Proof. unfold after_notice. destruct (_ && _); reflexivity. Qed.

Lemma ticks_after_notice rc skip s : ticks (after_notice rc skip s) = ticks s.
Proof. unfold after_notice. destruct (_ && _); reflexivity. Qed.

(** What every run keeps, whatever the services answer. *)
Lemma summary_run_invariants env cfg content chat_id :
  ∀ (k rc : nat) skip s, (3 - rc ≤ k)%nat →
  let s' := _process_summary env cfg content chat_id rc skip s in
  pending_messages s' = pending_messages s ∧
  sent s' = sent (after_notice rc skip s) ∧
  action s' = BREAK_PASS ∧
  is_Some (reply s') ∧
  (length (gets s) < length (gets s') ≤ length (gets s) + S k)%nat ∧
  (length (posts s') ≤ length (posts s) + 1)%nat.
Proof.
  intros k. induction k as [| k IH]; intros rc skip s Hk s'; subst s';
    rewrite _process_summary_eq.
  all: destruct (get_failure (http_get env (length (gets s))
                   (_get_jina_url cfg (html_unescape env content))))
         as [msg |] eqn:Hfail.
  all: try (rewrite (summary_body_failure _ _ _ _ _ _ _ msg Hfail)).
  all: try (apply get_content_success in Hfail as (text & Hget & Hne & _);
            rewrite (summary_body_extracted _ _ _ _ _ _ _ text Hget Hne);
            cbv zeta;
            destruct (http_post env (length (posts s)) _ _ _)
              as [summary | msg] eqn:Hpost;
            unfold after_get; state_simpl;
            rewrite ?pending_messages_after_notice, ?gets_after_notice,
              ?posts_after_notice, ?length_app; cbn [length];
            repeat split; eauto; lia).
  - destruct (decide (rc < 3)%nat); [lia |]. state_simpl.
    rewrite pending_messages_after_notice, gets_after_notice,
      posts_after_notice, length_app. cbn [length].
    repeat split; eauto; lia.
  - destruct (decide (rc < 3)%nat).
    + destruct (IH (rc + 1)%nat false
                  (record_get (_get_jina_url cfg (html_unescape env content))
                     (after_notice rc skip s)) ltac:(lia))
        as (Hpending & Hsent & Haction & Hreply & Hgets & Hposts).
      rewrite after_notice_retry in Hsent.
      revert Hpending Hsent Hgets Hposts. state_simpl.
      rewrite pending_messages_after_notice, gets_after_notice,
        posts_after_notice, length_app. cbn [length].
      intros Hpending Hsent Hgets Hposts.
      repeat split; try assumption; lia.
    + state_simpl.
      rewrite pending_messages_after_notice, gets_after_notice,
        posts_after_notice, length_app. cbn [length].
      repeat split; eauto; lia.
Qed.

(** X7. Whatever the two services answer, a summarization makes at least
    one and at most four extraction requests and at most one completion
    request, and it always ends with a reply set and the action
    [BREAK_PASS]. *)
Theorem summary_requests_bounded (env : Env) (cfg : Config)
    (content chat_id : str) (skip_notice : bool) (s : State) :
  let s' := _process_summary env cfg content chat_id 0 skip_notice s in
  (length (gets s) + 1 ≤ length (gets s') ≤ length (gets s) + 4)%nat ∧
  (length (posts s') ≤ length (posts s) + 1)%nat ∧
  is_Some (reply s') ∧
  action s' = BREAK_PASS.
Proof.
  intros s'.
  destruct (summary_run_invariants env cfg content chat_id 3 0 skip_notice s
              ltac:(lia)) as (_ & _ & Haction & Hreply & Hgets & Hposts).
  fold s' in Haction, Hreply, Hgets, Hposts.
  repeat split; try assumption; lia.
Qed.


(** A run that meets [k] failing extraction calls and then a page that
    the completion service summarizes. *)
Lemma summary_recovers_from env cfg content chat_id text summary :
  ∀ (k rc : nat) skip s, (rc + k ≤ 3)%nat →
  let jina_url := _get_jina_url cfg (html_unescape env content) in
  (∀ i, (i < k)%nat →
        is_Some (get_failure (http_get env (length (gets s) + i) jina_url))) →
  http_get env (length (gets s) + k) jina_url = Returned text →
  nonempty text = true →
  http_post env (length (posts s)) (_get_openai_chat_url cfg)
    (_get_openai_headers cfg) (summary_payload cfg text) = Returned summary →
  let s' := _process_summary env cfg content chat_id rc skip s in
  gets s' = gets s ++ replicate (S k) jina_url ∧
  posts s' = posts s ++ [(_get_openai_chat_url cfg, summary_payload cfg text)] ∧
  reply s' = Some {| reply_type := ReplyType.TEXT;
                     reply_content := summary |} ∧
  content_cache s' =
    <[chat_id := {| c_url := html_unescape env content;
                    c_content := slice_to (max_words cfg) text;
                    c_timestamp := clock env (ticks s) |}]> (content_cache s).
Proof.
  intros k. induction k as [| k IH];
    intros rc skip s Hrc jina_url Hfail Hget Hne Hpost s'; subst s';
    rewrite _process_summary_eq.
  - rewrite Nat.add_0_r in Hget.
    rewrite (summary_body_extracted _ _ _ _ _ _ _ text Hget Hne).
    cbv zeta. rewrite Hpost. unfold after_get. state_simpl.
    rewrite gets_after_notice, posts_after_notice.
    repeat split; reflexivity.
  - destruct (Hfail 0%nat ltac:(lia)) as [msg Hmsg].
    rewrite Nat.add_0_r in Hmsg.
    rewrite (summary_body_failure _ _ _ _ _ _ _ msg Hmsg).
    destruct (decide (rc < 3)%nat); [| lia].
    fold jina_url.
    destruct (IH (rc + 1)%nat false
                (record_get jina_url (after_notice rc skip s)) ltac:(lia))
      as (Hgets & Hposts & Hreply & Hcache).
    + intros i Hi. state_simpl.
      rewrite gets_after_notice, length_app. cbn [length].
      replace (length (gets s) + 1 + i)%nat with (length (gets s) + S i)%nat
        by lia.
      apply Hfail. lia.
    + state_simpl. rewrite gets_after_notice, length_app. cbn [length].
      replace (length (gets s) + 1 + k)%nat with (length (gets s) + S k)%nat
        by lia.
      exact Hget.
    + exact Hne.
    + state_simpl. rewrite posts_after_notice. exact Hpost.
    + revert Hgets Hposts Hcache. state_simpl.
      rewrite gets_after_notice, posts_after_notice,
        content_cache_after_notice, ticks_after_notice.
      intros Hgets Hposts Hcache.
      rewrite Hgets, Hposts, Hreply, Hcache.
      repeat split; try reflexivity.
      by rewrite <- app_assoc.
Qed.

(** X9. Recovery: when the first [k] extraction calls fail, [k] at most
    three, and the next one returns a page that the completion service
    summarizes, the run makes [k + 1] extraction requests and one
    completion request, replies with the summary as text, and writes the
    cache entry of the chat: the unescaped URL, the page cut to
    [max_words], and the time of the write. *)
Theorem summary_recovers (env : Env) (cfg : Config) (content chat_id : str)
    (skip_notice : bool) (s : State) (k : nat) (text summary : str) :
  (k ≤ 3)%nat →
  (∀ i, (i < k)%nat →
        is_Some (get_failure
                   (http_get env (length (gets s) + i)
                      (_get_jina_url cfg (html_unescape env content))))) →
  http_get env (length (gets s) + k)
    (_get_jina_url cfg (html_unescape env content)) = Returned text →
  nonempty text = true →
  http_post env (length (posts s)) (_get_openai_chat_url cfg)
    (_get_openai_headers cfg) (summary_payload cfg text) = Returned summary →
  let s' := _process_summary env cfg content chat_id 0 skip_notice s in
  length (gets s') = (length (gets s) + k + 1)%nat ∧
  posts s' = posts s ++ [(_get_openai_chat_url cfg, summary_payload cfg text)] ∧
  reply s' = Some {| reply_type := ReplyType.TEXT;
                     reply_content := summary |} ∧
  content_cache s' !! chat_id =
    Some {| c_url := html_unescape env content;
            c_content := slice_to (max_words cfg) text;
            c_timestamp := clock env (ticks s) |}.
Proof.
  intros Hk Hfail Hget Hne Hpost s'.
  destruct (summary_recovers_from env cfg content chat_id text summary
              k 0 skip_notice s ltac:(lia) Hfail Hget Hne Hpost)
    as (Hgets & Hposts & Hreply & Hcache).
  fold s' in Hgets, Hposts, Hreply, Hcache.
  repeat split; try assumption.
  - rewrite Hgets, length_app, length_replicate. lia.
  - rewrite Hcache. apply lookup_insert_eq.
Qed.

(** ** The question run *)

Lemma question_body_stale env cfg question chat_id rc s :
  content_cache s !! chat_id = None
  ∨ (∃ entry, content_cache s !! chat_id = Some entry ∧
              (content_cache_timeout cfg
               < clock env (ticks s) - c_timestamp entry)%Q) →
  ∃ s1, question_body env cfg question chat_id rc s
        = Done (set_reply reply_expired s1)
        ∧ (s1 = s ∨ s1 = tick s).
Proof.
  unfold question_body, recent_content.
  intros [Hnone | (entry & Hlook & Hage)].
  - rewrite Hnone. exists s. by split; [| left].
  - rewrite Hlook. state_simpl.
    destruct (Qle_bool _ _) eqn:Hle.
    + apply Qle_bool_iff in Hle. destruct (Qlt_not_le _ _ Hage Hle).
    + exists (tick s). by split; [| right].
Qed.

Lemma question_body_fresh env cfg question chat_id rc s entry :
  content_cache s !! chat_id = Some entry →
  (clock env (ticks s) - c_timestamp entry <= content_cache_timeout cfg)%Q →
  question_body env cfg question chat_id rc s =
  let payload := question_payload cfg (c_content entry) question in
  let s1 := record_post (_get_openai_chat_url cfg) payload
              (after_question_notice rc s) in
  match http_post env (length (posts s)) (_get_openai_chat_url cfg)
          (_get_openai_headers cfg) payload with
  | Returned answer =>
    Done (set_reply {| reply_type := ReplyType.TEXT;
                       reply_content := answer |} s1)
  | Raised msg => Except msg s1
  end.
Proof.
  intros Hlook Hfresh. unfold question_body, recent_content.
  rewrite Hlook. state_simpl.
  apply Qle_bool_iff in Hfresh. rewrite Hfresh.
  unfold chat_completion, after_question_notice.
  fold (question_payload cfg (c_content entry) question).
  destruct (bool_decide (rc = 0%nat)); reflexivity.
Qed.

(** X10. A question about a chat without a cache entry, or with an entry
    older than the timeout at the time of asking, gets the text reply
    that the summary has expired or does not exist: no progress notice is
    sent, no completion request is made, nothing is retried, and the
    caches stay as they are (a stale entry is not deleted). *)
Theorem question_without_fresh_content (env : Env) (cfg : Config)
    (question chat_id : str) (retry_count : nat) (s : State) :
  content_cache s !! chat_id = None
  ∨ (∃ entry, content_cache s !! chat_id = Some entry ∧
              (content_cache_timeout cfg
               < clock env (ticks s) - c_timestamp entry)%Q) →
  let s' := _process_question env cfg question chat_id retry_count s in
  reply s' = Some reply_expired ∧
  action s' = BREAK_PASS ∧
  sent s' = sent s ∧
  posts s' = posts s ∧
  content_cache s' = content_cache s ∧
  pending_messages s' = pending_messages s.
Proof.
  intros Hstale s'. subst s'. rewrite _process_question_eq.
  destruct (question_body_stale env cfg question chat_id retry_count s Hstale)
    as (s1 & -> & [-> | ->]); repeat split; reflexivity.
Qed.

(** What every question run keeps, whatever the service answers. *)
Lemma question_run_invariants env cfg question chat_id :
  ∀ (k rc : nat) s, (3 - rc ≤ k)%nat →
  let s' := _process_question env cfg question chat_id rc s in
  content_cache s' = content_cache s ∧
  pending_messages s' = pending_messages s ∧
  gets s' = gets s ∧
  action s' = BREAK_PASS ∧
  is_Some (reply s') ∧
  (length (posts s') ≤ length (posts s) + S k)%nat ∧
  (sent s' = sent s ∨ (rc = 0%nat ∧ sent s' = sent s ++ [notice_question])).
Proof.
  intros k. induction k as [| k IH]; intros rc s Hk s'; subst s';
    rewrite _process_question_eq.
  all: destruct (content_cache s !! chat_id) as [entry |] eqn:Hlook;
    [ destruct (Qle_bool (clock env (ticks s) - c_timestamp entry)
                  (content_cache_timeout cfg)) eqn:Hle;
      [ apply Qle_bool_iff in Hle
      | assert (Hstale : content_cache s !! chat_id = None
          ∨ (∃ entry, content_cache s !! chat_id = Some entry ∧
               (content_cache_timeout cfg
                < clock env (ticks s) - c_timestamp entry)%Q))
          by (right; exists entry; split; [exact Hlook |];
              apply Qnot_le_lt; intros Hle'%Qle_bool_iff; congruence) ]
    | assert (Hstale : content_cache s !! chat_id = None
          ∨ (∃ entry, content_cache s !! chat_id = Some entry ∧
               (content_cache_timeout cfg
                < clock env (ticks s) - c_timestamp entry)%Q))
        by (by left) ].
  all: try (destruct (question_body_stale env cfg question chat_id rc s Hstale)
              as (s1 & -> & [-> | ->]); state_simpl;
            repeat split; eauto; lia).
  all: rewrite (question_body_fresh _ _ _ _ _ _ entry Hlook Hle); cbv zeta.
  all: destruct (http_post env (length (posts s)) _ _ _) as [answer | msg].
  all: try (unfold after_question_notice;
            destruct (bool_decide_reflect (rc = 0%nat)); state_simpl;
            rewrite ?length_app; cbn [length];
            repeat split; eauto; lia).
  - destruct (decide (rc < 3)%nat); [lia |].
    unfold after_question_notice.
    destruct (bool_decide_reflect (rc = 0%nat)); state_simpl;
      rewrite ?length_app; cbn [length]; repeat split; eauto; lia.
  - destruct (decide (rc < 3)%nat).
    + destruct (IH (rc + 1)%nat
                  (record_post (_get_openai_chat_url cfg)
                     (question_payload cfg (c_content entry) question)
                     (after_question_notice rc s)) ltac:(lia))
        as (Hcache & Hpending & Hgets & Haction & Hreply & Hposts & Hsent).
      revert Hcache Hpending Hgets Haction Hreply Hposts Hsent.
      unfold after_question_notice.
      destruct (bool_decide_reflect (rc = 0%nat)); state_simpl;
        rewrite ?length_app; cbn [length];
        intros Hcache Hpending Hgets Haction Hreply Hposts Hsent;
        (split_and!; [assumption .. | lia |]);
        destruct Hsent as [Hsent | [? _]]; try lia; eauto.
    + unfold after_question_notice.
      destruct (bool_decide_reflect (rc = 0%nat)); state_simpl;
        rewrite ?length_app; cbn [length]; repeat split; eauto; lia.
Qed.

(** X11. A question never changes the two caches and never makes an
    extraction request; whatever the completion service answers, it makes
    at most four completion requests, sends at most the one progress
    notice, and ends with a reply set and the action [BREAK_PASS]. *)
Theorem question_read_only (env : Env) (cfg : Config)
    (question chat_id : str) (s : State) :
  let s' := _process_question env cfg question chat_id 0 s in
  content_cache s' = content_cache s ∧
  pending_messages s' = pending_messages s ∧
  gets s' = gets s ∧
  (length (posts s') ≤ length (posts s) + 4)%nat ∧
  (sent s' = sent s ∨ sent s' = sent s ++ [notice_question]) ∧
  is_Some (reply s') ∧
  action s' = BREAK_PASS.
Proof.
  intros s'.
  destruct (question_run_invariants env cfg question chat_id 3 0 s ltac:(lia))
    as (Hcache & Hpending & Hgets & Haction & Hreply & Hposts & Hsent).
  fold s' in Hcache, Hpending, Hgets, Haction, Hreply, Hposts, Hsent.
  repeat split; try assumption.
  destruct Hsent as [Hsent | [_ Hsent]]; [by left | by right].
Qed.

Lemma fields_after_question_notice rc s :
  content_cache (after_question_notice rc s) = content_cache s ∧
  posts (after_question_notice rc s) = posts s ∧
  ticks (after_question_notice rc s) = S (ticks s).
Proof.
  unfold after_question_notice.
  destruct (bool_decide (rc = 0%nat)); repeat split; reflexivity.
Qed.

Lemma sent_after_question_notice_retry rc s :
  sent (after_question_notice (rc + 1) s) = sent s.
Proof.
  unfold after_question_notice. by rewrite bool_decide_eq_false_2 by lia.
Qed.

(** A question run whose completion calls all fail while the entry stays
    fresh, started at attempt number [rc] with [k] retries left. *)
Lemma question_always_failing env cfg question chat_id entry :
  (∀ n, (clock env n - c_timestamp entry <= content_cache_timeout cfg)%Q) →
  (∀ n url headers payload,
     ∃ msg, http_post env n url headers payload = Raised msg) →
  ∀ (k rc : nat) s, (rc + k = 3)%nat →
  content_cache s !! chat_id = Some entry →
  let payload := question_payload cfg (c_content entry) question in
  let s' := _process_question env cfg question chat_id rc s in
  posts s' = posts s ++ replicate (S k) (_get_openai_chat_url cfg, payload) ∧
  sent s' = sent (after_question_notice rc s) ∧
  action s' = BREAK_PASS ∧
  ∃ msg, http_post env (length (posts s) + k) (_get_openai_chat_url cfg)
           (_get_openai_headers cfg) payload = Raised msg ∧
         reply s' = Some {| reply_type := ReplyType.ERROR;
                            reply_content :=
                              py "抱歉，处理您的问题时出错: " ++ msg |}.
Proof.
  intros Hfresh Hfail k. induction k as [| k IH];
    intros rc s Hrc Hlook payload s'; subst s';
    rewrite _process_question_eq;
    rewrite (question_body_fresh _ _ _ _ _ _ entry Hlook (Hfresh _));
    cbv zeta; fold payload;
    destruct (Hfail (length (posts s)) (_get_openai_chat_url cfg)
                (_get_openai_headers cfg) payload) as [msg Hmsg];
    rewrite Hmsg;
    destruct (fields_after_question_notice rc s) as (Hc & Hp & Ht).
  - destruct (decide (rc < 3)%nat); [lia |]. state_simpl. rewrite Hp.
    split_and!; try reflexivity.
    exists msg. by rewrite Nat.add_0_r.
  - destruct (decide (rc < 3)%nat); [| lia].
    destruct (IH (rc + 1)%nat
                (record_post (_get_openai_chat_url cfg) payload
                   (after_question_notice rc s)) ltac:(lia))
      as (Hposts & Hsent & Haction & msg' & Hmsg' & Hreply).
    { state_simpl. by rewrite Hc. }
    fold payload in Hposts, Hsent, Haction, Hmsg', Hreply.
    rewrite sent_after_question_notice_retry in Hsent.
    revert Hposts Hsent Hmsg'. state_simpl. rewrite Hp, length_app.
    cbn [length]. intros Hposts Hsent Hmsg'.
    split_and!; try assumption.
    + rewrite Hposts, <- app_assoc. reflexivity.
    + exists msg'. split; [| exact Hreply].
      replace (length (posts s) + S k)%nat
        with (length (posts s) + 1 + k)%nat by lia.
      exact Hmsg'.
Qed.

(** X12. Retry bound of the question run: while the cache entry of the
    chat is fresh at every reading of the clock and every completion call
    fails, a question makes exactly four completion requests, all with the
    prompt built from the cached content and the question, sends the
    progress notice once, and ends with an error-typed reply that carries
    the message of the fourth failure. *)
Theorem question_retry_bound (env : Env) (cfg : Config)
    (question chat_id : str) (s : State) (entry : SummaryCacheEntry) :
  content_cache s !! chat_id = Some entry →
  (∀ n, (clock env n - c_timestamp entry <= content_cache_timeout cfg)%Q) →
  (∀ n url headers payload,
     ∃ msg, http_post env n url headers payload = Raised msg) →
  let payload := question_payload cfg (c_content entry) question in
  let s' := _process_question env cfg question chat_id 0 s in
  posts s' = posts s ++ replicate 4 (_get_openai_chat_url cfg, payload) ∧
  sent s' = sent s ++ [notice_question] ∧
  action s' = BREAK_PASS ∧
  ∃ msg, http_post env (length (posts s) + 3) (_get_openai_chat_url cfg)
           (_get_openai_headers cfg) payload = Raised msg ∧
         reply s' = Some {| reply_type := ReplyType.ERROR;
                            reply_content :=
                              py "抱歉，处理您的问题时出错: " ++ msg |}.
Proof.
  intros Hlook Hfresh Hfail payload s'.
  destruct (question_always_failing env cfg question chat_id entry Hfresh
              Hfail 3 0 s eq_refl Hlook) as (Hposts & Hsent & Haction & Hmsg).
  fold payload s' in Hposts, Hsent, Haction, Hmsg.
  split_and!; assumption.
Qed.

(** ** More on the handler *)







(** X17. Nothing to summarize: a trigger without an inline URL in a chat
    that has no pending share does no more than the purge; no reply is
    set and nothing is sent or requested. *)
Theorem bare_trigger_without_pending (env : Env) (cfg : Config) (ev : Event)
    (s : State) :
  ctype ev = ContextType.TEXT →
  is_trigger (effective_text cfg ev) = true →
  no_inline_url cfg (effective_text cfg ev) = true →
  pending_messages s !! chat_id_of env ev = None →
  let s' := on_handle_context env cfg ev s in
  s' = _clean_expired_cache env cfg s ∧
  reply s' = reply s ∧ action s' = action s ∧
  sent s' = sent s ∧ gets s' = gets s ∧ posts s' = posts s.
Proof.
  intros Htype Htrigger Hnone Hlook s'.
  assert (Hpurge : s' = _clean_expired_cache env cfg s).
  { subst s'.
    rewrite (on_handle_context_take _ _ _ _ Htype Htrigger Hnone). cbv zeta.
    rewrite pending_messages_clean, lookup_purged, Hlook. reflexivity. }
  split; [exact Hpurge |]. rewrite Hpurge.
  destruct (other_fields_clean env cfg s) as (? & ? & ? & ? & ? & _).
  split_and!; assumption.
Qed.

Lemma re_sub_prefix_match (a : N) (p : str) (c : N) (tail : str) :
  is_space a = false → is_space c = true →
  re_sub_prefix (a :: p) ((a :: p) ++ c :: tail) = Some (lstrip tail).
Proof.
  intros Ha Hc. cbn [app re_sub_prefix]. rewrite Ha.
  unfold match_here.
  assert (Hstart : ∀ (x y : str), startswith (x ++ y) x = true).
  { intros x y. induction x as [| b x IH]; [reflexivity |].
    cbn. by rewrite N.eqb_refl. }
  change (a :: p ++ c :: tail) with ((a :: p) ++ c :: tail).
  rewrite Hstart, drop_app_length. by rewrite Hc.
Qed.

(** X18. In a group, a configured prefix that is followed by whitespace is
    removed together with all the whitespace after it: when the trimmed
    text is the first configured prefix, one whitespace character and a
    rest, the effective text is the rest without its leading whitespace.
    The prefix starts with a character that is not whitespace. *)
Theorem group_prefix_removed (cfg : Config) (ev : Event) (a : N)
    (prefix_tail : str) (more : list str) (c : N) (tail : str) :
  is_group ev = true →
  group_chat_prefix cfg = (a :: prefix_tail) :: more →
  is_space a = false →
  is_space c = true →
  strip (content ev) = (a :: prefix_tail) ++ c :: tail →
  effective_text cfg ev = lstrip tail.
Proof.
  intros Hgroup Hprefix Ha Hc Htext.
  unfold effective_text. rewrite Hgroup, Hprefix, Htext. cbv zeta.
  cbn [strip_group_prefix].
  by rewrite (re_sub_prefix_match a prefix_tail c tail Ha Hc).
Qed.

(** ** The text given to the completion service *)

Lemma slice_to_idempotent (n : Z) (text : str) :
  (0 <= n)%Z → slice_to n (slice_to n text) = slice_to n text.
Proof.
  intros Hn. unfold slice_to.
  destruct (0 <=? n)%Z eqn:Hle; [| lia].
  by rewrite take_take, Nat.min_id.
Qed.

(** X19. With a non-negative [max_words], the summarization prompt embeds
    exactly the text that is cached for later questions: the page cut to
    [max_words] characters, between the configured instruction and the
    closing quotes, in a single user message.  Cutting twice, before the
    call and inside [_get_openai_payload], changes nothing. *)
Theorem summary_prompt_embeds_cached_content (cfg : Config) (text : str) :
  (0 <= max_words cfg)%Z →
  messages (summary_payload cfg text) =
    [ {| role := py "user";
         msg_content := prompt cfg ++ [10; 10] ++ py "'''"
                        ++ slice_to (max_words cfg) text ++ py "'''" |} ] ∧
  (length (slice_to (max_words cfg) text) ≤ Z.to_nat (max_words cfg))%nat.
Proof.
  intros Hmax. split.
  - unfold summary_payload, _get_openai_payload. cbv zeta. cbn [messages].
    by rewrite (slice_to_idempotent _ _ Hmax).
  - unfold slice_to. destruct (0 <=? max_words cfg)%Z eqn:Hle; [| lia].
    rewrite length_take. lia.
Qed.

(** ** The directory lookups *)

(** X20. A nickname lookup either falls back to the raw user id, and then
    leaves the memo table as it was (a failure is not memoized); or it
    returns a name that is in the memo table afterwards, and then every
    later lookup of that user returns the same name without a request,
    whatever the directory would answer. *)
Theorem nickname_lookup_memoized (denv denv' : DirEnv) (user_id : str)
    (d : Directory) :
  let '(name, d') := _get_user_nickname denv user_id d in
  (name = user_id ∧ user_nickname_cache d' = user_nickname_cache d)
  ∨ (user_nickname_cache d' !! user_id = Some name ∧
     _get_user_nickname denv' user_id d' = (name, d')).
Proof.
  unfold _get_user_nickname at 1.
  destruct (user_nickname_cache d !! user_id) as [nickname |] eqn:Hcached.
  - right. split; [exact Hcached |].
    unfold _get_user_nickname. by rewrite Hcached.
  - cbv zeta.
    destruct (getBriefInfo denv (length (requested d)) user_id)
      as [msg | status_code [data |]]; try (by left).
    + destruct (bool_decide (status_code = 200%Z)); [| by left].
      destruct (bool_decide (dir_ret data = Some 200%Z)); [| by left].
      destruct (dir_data data) as [| contact rest]; [by left |].
      right.
      assert (Hnew : user_nickname_cache
                       (cache_nickname user_id
                          (default user_id (nickName contact))
                          (record_request user_id d)) !! user_id
                     = Some (default user_id (nickName contact)))
        by apply lookup_insert_eq.
      split; [exact Hnew |].
      unfold _get_user_nickname. by rewrite Hnew.
    + destruct (bool_decide (status_code = 200%Z)); by left.
Qed.

(** X21. A group-name lookup gives no name at all exactly when the name
    is not in the memo table and the directory answers with a status
    other than 200; in every other case (a memoized name, an exception, a
    body that cannot be read or has no name) it gives the memoized or
    returned name or the raw group id. *)
Theorem group_name_missing_iff (denv : DirEnv) (group_id : str)
    (d : Directory) :
  (_get_group_name denv group_id d).1 = None
  ↔ group_name_cache d !! group_id = None
    ∧ ∃ status_code json,
        getChatroomInfo denv (length (requested d)) group_id
          = DirResponse status_code json
        ∧ status_code ≠ 200%Z.
Proof.
  unfold _get_group_name.
  destruct (group_name_cache d !! group_id) as [name |] eqn:Hcached.
  - split; [discriminate | by intros [? _]].
  - cbv zeta.
    destruct (getChatroomInfo denv (length (requested d)) group_id)
      as [msg | status_code json].
    + split; [discriminate | by intros [_ (? & ? & ? & _)]].
    + destruct (bool_decide_reflect (status_code = 200%Z)) as [-> | Hne].
      * split; [| by intros [_ (? & ? & [= <- _] & ?)]].
        destruct json as [data |]; [| discriminate].
        destruct (bool_decide (dir_ret data = Some 200%Z)); [| discriminate].
        destruct (dir_data data) as [group_info |]; [| discriminate].
        destruct (nickName group_info) as [group_name |]; [| discriminate].
        destruct (nonempty group_name); discriminate.
      * split; [| reflexivity].
        intros _. split; [reflexivity |]. by exists status_code, json.
Qed.

(** X22. A group name is memoized only when the directory gave a
    non-empty name: after a lookup, the memo table either is as it was or
    has gained exactly the entry of this group, holding the non-empty name
    that the lookup returned. *)
Theorem group_name_cached_only_when_given (denv : DirEnv) (group_id : str)
    (d : Directory) :
  let '(result, d') := _get_group_name denv group_id d in
  group_name_cache d' = group_name_cache d
  ∨ ∃ name, result = Some name ∧ nonempty name = true ∧
            group_name_cache d' = <[group_id := name]> (group_name_cache d).
Proof.
  unfold _get_group_name.
  destruct (group_name_cache d !! group_id) as [name |]; [by left |].
  cbv zeta.
  destruct (getChatroomInfo denv (length (requested d)) group_id)
    as [msg | status_code json]; [by left |].
  destruct (bool_decide (status_code = 200%Z)); [| by left].
  destruct json as [data |]; [| by left].
  destruct (bool_decide (dir_ret data = Some 200%Z)); [| by left].
  destruct (dir_data data) as [group_info |]; [| by left].
  destruct (nickName group_info) as [group_name |]; [| by left].
  destruct (nonempty group_name) eqn:Hne; [| by left].
  right. by exists group_name.
Qed.

(** ** A question that is answered *)

(** X23. A question about a chat whose cache entry is fresh, with a
    completion call that succeeds: the progress notice is sent, one
    completion request is made whose single user message is the prompt
    built from the cached content, cut to [max_words], and the question,
    the answer is the text reply, and no extraction request is made. *)
Theorem question_answered (env : Env) (cfg : Config) (question chat_id : str)
    (s : State) (entry : SummaryCacheEntry) (answer : str) :
  content_cache s !! chat_id = Some entry →
  (clock env (ticks s) - c_timestamp entry <= content_cache_timeout cfg)%Q →
  http_post env (length (posts s)) (_get_openai_chat_url cfg)
    (_get_openai_headers cfg)
    (question_payload cfg (c_content entry) question) = Returned answer →
  let s' := _process_question env cfg question chat_id 0 s in
  sent s' = sent s ++ [notice_question] ∧
  posts s' = posts s ++ [(_get_openai_chat_url cfg,
                          question_payload cfg (c_content entry) question)] ∧
  (msg_content <$> messages (question_payload cfg (c_content entry) question))
    = [ py "Given the content:" ++ [10] ++ py "'''"
        ++ slice_to (max_words cfg) (c_content entry) ++ py "'''" ++ [10; 10]
        ++ py "Answer the question: " ++ question ] ∧
  reply s' = Some {| reply_type := ReplyType.TEXT; reply_content := answer |} ∧
  action s' = BREAK_PASS ∧
  gets s' = gets s.
Proof.
  intros Hlook Hfresh Hpost s'. subst s'.
  rewrite _process_question_eq.
  rewrite (question_body_fresh _ _ _ _ _ _ entry Hlook Hfresh).
  cbv zeta. rewrite Hpost. unfold after_question_notice.
  rewrite (bool_decide_eq_true_2 (0%nat = 0%nat) eq_refl). state_simpl.
  split_and!; reflexivity.
Qed.

(** * The further properties at sample inputs *)

Lemma policy_blacklist_wins_witness :
  py "room" ∈ black_group_list listed_config ∧
  member (py "room") (white_group_list listed_config) = true ∧
  auto_sum listed_config = true ∧
  _should_auto_summarize listed_config (py "room") true = false.
Proof.
  assert (Hin : py "room" ∈ (if true then black_group_list listed_config
                             else black_user_list listed_config))
    by apply list_elem_of_here.
  split; [exact Hin |]. split; [vm_compute; reflexivity |].
  split; [reflexivity |].
  exact (policy_blacklist_wins listed_config (py "room") true Hin).
Defined.

Lemma whitelist_gate_witness :
  white_url_list whitelist_config ≠ [] ∧
  (∀ white_url, white_url ∈ white_url_list whitelist_config →
     startswith (strip (py "https://other.example/page")) white_url = false) ∧
  urlparse_raises no_netloc_invalid (strip (py "https://other.example/page"))
    = false ∧
  _check_url_outcome no_netloc_invalid whitelist_config
    (py "https://other.example/page") = Some false.
Proof.
  assert (Hne : white_url_list whitelist_config ≠ [])
    by (vm_compute; discriminate).
  assert (Hnone : ∀ white_url, white_url ∈ white_url_list whitelist_config →
            startswith (strip (py "https://other.example/page")) white_url
            = false).
  { intros white_url Hin. apply list_elem_of_singleton in Hin. subst white_url.
    vm_compute. reflexivity. }
  assert (Hparse : urlparse_raises no_netloc_invalid
                     (strip (py "https://other.example/page")) = false)
    by (vm_compute; reflexivity).
  split; [exact Hne |]. split; [exact Hnone |]. split; [exact Hparse |].
  rewrite (whitelist_gate no_netloc_invalid whitelist_config
             (py "https://other.example/page") Hne Hnone).
  rewrite Hparse. reflexivity.
Defined.

Lemma check_url_needs_colon_witness :
  (58 ∉ py "good.example/page") ∧
  urlparse_raises no_netloc_invalid (strip (py "good.example/page")) = false ∧
  _check_url_outcome no_netloc_invalid bot_config (py "good.example/page")
  = Some false.
Proof.
  assert (Hnot : 58 ∉ py "good.example/page").
  { apply (bool_decide_unpack _). vm_compute. exact I. }
  assert (Hparse : urlparse_raises no_netloc_invalid
                     (strip (py "good.example/page")) = false)
    by (vm_compute; reflexivity).
  split; [exact Hnot |]. split; [exact Hparse |].
  rewrite (check_url_needs_colon no_netloc_invalid bot_config
             (py "good.example/page") Hnot).
  rewrite Hparse. reflexivity.
Defined.

Lemma check_url_ignores_surrounding_whitespace_witness :
  forallb is_space [32; 9] = true ∧
  forallb is_space [10] = true ∧
  _check_url bot_config ([32; 9] ++ good_url ++ [10])
  = _check_url bot_config good_url.
Proof.
  assert (Hlead : forallb is_space [32; 9] = true) by reflexivity.
  assert (Htrail : forallb is_space [10] = true) by reflexivity.
  split; [exact Hlead |]. split; [exact Htrail |].
  exact (check_url_ignores_surrounding_whitespace bot_config [32; 9] good_url
           [10] Hlead Htrail).
Defined.

Lemma summary_recovers_witness :
  (2 ≤ 3)%nat ∧
  (∀ i, (i < 2)%nat →
        is_Some (get_failure
                   (http_get (flaky_env 2) (length (gets initial_state) + i)
                      (_get_jina_url bot_config
                         (html_unescape (flaky_env 2) good_url))))) ∧
  http_get (flaky_env 2) (length (gets initial_state) + 2)
    (_get_jina_url bot_config (html_unescape (flaky_env 2) good_url))
    = Returned (py "page text") ∧
  length (gets (_process_summary (flaky_env 2) bot_config good_url
                  (py "alice") 0 false initial_state))
  = (length (gets initial_state) + 2 + 1)%nat.
Proof.
  assert (Hk : (2 ≤ 3)%nat) by lia.
  assert (Hfail : ∀ i, (i < 2)%nat →
            is_Some (get_failure
                       (http_get (flaky_env 2)
                          (length (gets initial_state) + i)
                          (_get_jina_url bot_config
                             (html_unescape (flaky_env 2) good_url))))).
  { intros i Hi. destruct i as [| [| i]]; [by eexists | by eexists | lia]. }
  assert (Hget : http_get (flaky_env 2) (length (gets initial_state) + 2)
                   (_get_jina_url bot_config
                      (html_unescape (flaky_env 2) good_url))
                 = Returned (py "page text")) by reflexivity.
  assert (Hne : nonempty (py "page text") = true) by reflexivity.
  assert (Hpost : http_post (flaky_env 2) (length (posts initial_state))
                    (_get_openai_chat_url bot_config)
                    (_get_openai_headers bot_config)
                    (summary_payload bot_config (py "page text"))
                  = Returned (py "summary")) by reflexivity.
  split; [exact Hk |]. split; [exact Hfail |]. split; [exact Hget |].
  exact (proj1 (summary_recovers (flaky_env 2) bot_config good_url
                  (py "alice") false initial_state 2 (py "page text")
                  (py "summary") Hk Hfail Hget Hne Hpost)).
Defined.

Lemma question_without_fresh_content_witness :
  (content_cache initial_state !! py "alice" = None
   ∨ (∃ entry, content_cache initial_state !! py "alice" = Some entry ∧
        (content_cache_timeout bot_config
         < clock answering_env (ticks initial_state) - c_timestamp entry)%Q)) ∧
  reply (_process_question answering_env bot_config (py "Why?") (py "alice")
           0 initial_state) = Some reply_expired.
Proof.
  assert (Hstale : content_cache initial_state !! py "alice" = None
    ∨ (∃ entry, content_cache initial_state !! py "alice" = Some entry ∧
         (content_cache_timeout bot_config
          < clock answering_env (ticks initial_state) - c_timestamp entry)%Q))
    by (left; reflexivity).
  split; [exact Hstale |].
  exact (proj1 (question_without_fresh_content answering_env bot_config
                  (py "Why?") (py "alice") 0 initial_state Hstale)).
Defined.

Lemma question_retry_bound_witness :
  content_cache summarized_state !! py "alice" = Some alice_summary ∧
  (∀ n, (clock failing_answer_env n - c_timestamp alice_summary
         <= content_cache_timeout bot_config)%Q) ∧
  (∀ n url headers payload,
     ∃ msg, http_post failing_answer_env n url headers payload = Raised msg) ∧
  posts (_process_question failing_answer_env bot_config (py "Why?")
           (py "alice") 0 summarized_state)
  = posts summarized_state
    ++ replicate 4 (_get_openai_chat_url bot_config,
                    question_payload bot_config (c_content alice_summary)
                      (py "Why?")).
Proof.
  assert (Hlook : content_cache summarized_state !! py "alice"
                  = Some alice_summary) by (vm_compute; reflexivity).
  assert (Hfresh : ∀ n, (clock failing_answer_env n - c_timestamp alice_summary
                         <= content_cache_timeout bot_config)%Q).
  { intros n. vm_compute. discriminate. }
  assert (Hfail : ∀ n url headers payload,
            ∃ msg, http_post failing_answer_env n url headers payload
                   = Raised msg).
  { intros n url headers payload. by eexists. }
  split; [exact Hlook |]. split; [exact Hfresh |]. split; [exact Hfail |].
  exact (proj1 (question_retry_bound failing_answer_env bot_config (py "Why?")
                  (py "alice") summarized_state alice_summary
                  Hlook Hfresh Hfail)).
Defined.

Lemma question_answered_witness :
  content_cache summarized_state !! py "alice" = Some alice_summary ∧
  (clock answering_env (ticks summarized_state) - c_timestamp alice_summary
   <= content_cache_timeout bot_config)%Q ∧
  sent (_process_question answering_env bot_config (py "Why?") (py "alice")
          0 summarized_state)
  = sent summarized_state ++ [notice_question].
Proof.
  assert (Hlook : content_cache summarized_state !! py "alice"
                  = Some alice_summary) by (vm_compute; reflexivity).
  assert (Hfresh : (clock answering_env (ticks summarized_state)
                    - c_timestamp alice_summary
                    <= content_cache_timeout bot_config)%Q).
  { vm_compute. discriminate. }
  assert (Hpost : http_post answering_env (length (posts summarized_state))
                    (_get_openai_chat_url bot_config)
                    (_get_openai_headers bot_config)
                    (question_payload bot_config (c_content alice_summary)
                       (py "Why?"))
                  = Returned (py "The main point.")) by reflexivity.
  split; [exact Hlook |]. split; [exact Hfresh |].
  exact (proj1 (question_answered answering_env bot_config (py "Why?")
                  (py "alice") summarized_state alice_summary
                  (py "The main point.") Hlook Hfresh Hpost)).
Defined.





Lemma bare_trigger_without_pending_witness :
  is_trigger (effective_text bot_config
                (text_event (py "总结") false (py "alice"))) = true ∧
  no_inline_url bot_config
    (effective_text bot_config
       (text_event (py "总结") false (py "alice"))) = true ∧
  pending_messages initial_state
    !! chat_id_of (working_env 5) (text_event (py "总结") false (py "alice"))
  = None ∧
  on_handle_context (working_env 5) bot_config
    (text_event (py "总结") false (py "alice")) initial_state
  = _clean_expired_cache (working_env 5) bot_config initial_state.
Proof.
  assert (Htype : ctype (text_event (py "总结") false (py "alice"))
                  = ContextType.TEXT) by reflexivity.
  assert (Htrigger : is_trigger (effective_text bot_config
                       (text_event (py "总结") false (py "alice"))) = true)
    by (vm_compute; reflexivity).
  assert (Hnone : no_inline_url bot_config
                    (effective_text bot_config
                       (text_event (py "总结") false (py "alice"))) = true)
    by (vm_compute; reflexivity).
  assert (Hlook : pending_messages initial_state
                    !! chat_id_of (working_env 5)
                         (text_event (py "总结") false (py "alice"))
                  = None) by (vm_compute; reflexivity).
  split; [exact Htrigger |]. split; [exact Hnone |]. split; [exact Hlook |].
  exact (proj1 (bare_trigger_without_pending (working_env 5) bot_config
                  (text_event (py "总结") false (py "alice")) initial_state
                  Htype Htrigger Hnone Hlook)).
Defined.

Lemma group_prefix_removed_witness :
  group_chat_prefix bot_config = (64 :: py "bot") :: [] ∧
  is_space 64 = false ∧
  is_space 9 = true ∧
  strip (content (text_event (64 :: py "bot" ++ 9 :: py "  总结 x ") true
                    (py "room")))
  = (64 :: py "bot") ++ 9 :: py "  总结 x" ∧
  effective_text bot_config
    (text_event (64 :: py "bot" ++ 9 :: py "  总结 x ") true (py "room"))
  = lstrip (py "  总结 x").
Proof.
  assert (Hgroup : is_group (text_event (64 :: py "bot" ++ 9 :: py "  总结 x ")
                               true (py "room")) = true) by reflexivity.
  assert (Hprefix : group_chat_prefix bot_config = (64 :: py "bot") :: [])
    by reflexivity.
  assert (Ha : is_space 64 = false) by reflexivity.
  assert (Hc : is_space 9 = true) by reflexivity.
  assert (Htext : strip (content (text_event
                           (64 :: py "bot" ++ 9 :: py "  总结 x ") true
                           (py "room")))
                  = (64 :: py "bot") ++ 9 :: py "  总结 x")
    by (vm_compute; reflexivity).
  split; [exact Hprefix |]. split; [exact Ha |]. split; [exact Hc |].
  split; [exact Htext |].
  exact (group_prefix_removed bot_config
           (text_event (64 :: py "bot" ++ 9 :: py "  总结 x ") true (py "room"))
           64 (py "bot") [] 9 (py "  总结 x") Hgroup Hprefix Ha Hc Htext).
Defined.

Lemma summary_prompt_embeds_cached_content_witness :
  (0 <= max_words bot_config)%Z ∧
  (length (slice_to (max_words bot_config) (py "page text"))
   ≤ Z.to_nat (max_words bot_config))%nat.
Proof.
  assert (Hmax : (0 <= max_words bot_config)%Z) by (vm_compute; discriminate).
  split; [exact Hmax |].
  exact (proj2 (summary_prompt_embeds_cached_content bot_config
                  (py "page text") Hmax)).
Defined.
